(** * opemu-linux: bit-manipulation dispatch and the ftrace trap hook

    A shallow embedding of [bmi.c] (the dispatcher [bmi_instruction]) and of
    [trap_hook.c] (hook installation, removal and the replacement trap
    handler), followed by the properties the design document states about
    them.

    Conventions.
    - C integers are [Z]; a narrowing store into a [uint8_t] is written
      [uint8_t z].
    - A pointer into a byte buffer is the list of bytes found from the
      pointer onwards; reading outside that list is a fault ([None]).
    - Functions declared in headers that are not part of the sources
      ([bmi.h], [optrap.h], the Linux headers) are fields of an interface
      class; every property is proved for all implementations of the
      interface. *)

From stdpp Require Import base numbers list strings gmap.
From Stdlib Require Import ZArith Lia.

(** ** Part I: definitions *)

(** *** bmi.c *)

Module Bmi.
Local Open Scope Z_scope.

(** Conversion to [uint8_t]. *)
Definition uint8_t (z : Z) : Z := z mod 2 ^ 8.

(** [p[i]] for a byte pointer [p]. *)
Definition load_u8 (p : list Z) (i : Z) : option Z :=
  if i <? 0 then None else p !! Z.to_nat i.

(** The declarations of [bmi.h] used by [bmi_instruction].  An output
    parameter becomes a component of the result; a function that receives
    the [regs] pointer returns the register snapshot it leaves behind.
    [bextr64]/[bextr32] receive the initial contents of their result
    operand, which the dispatcher sets to the destination operand. *)
Class bmi_h (pt_regs M64 M32 : Type) := {
  is_saved_state64 : pt_regs -> bool;
  get_consumed : list Z -> Z;
  get_x64regs :
    list Z -> Z -> Z -> Z -> Z -> pt_regs -> Z -> M64 * M64 * M64 * Z * pt_regs;
  get_x64regs_m32 :
    list Z -> Z -> Z -> Z -> Z -> pt_regs -> Z -> M32 * M32 * M32 * Z * pt_regs;
  _load_m64 : Z -> M64 -> pt_regs -> pt_regs;
  _load_m32 : Z -> M32 -> pt_regs -> pt_regs;
  rorx64 : M64 -> Z -> Z -> M64;
  andn64 : M64 -> M64 -> Z -> pt_regs -> M64 * pt_regs;
  blsr64 : M64 -> Z -> pt_regs -> M64 * pt_regs;
  blsmsk64 : M64 -> Z -> pt_regs -> M64 * pt_regs;
  blsi64 : M64 -> Z -> pt_regs -> M64 * pt_regs;
  bzhi64 : M64 -> M64 -> Z -> pt_regs -> M64 * pt_regs;
  pext64 : M64 -> M64 -> Z -> M64;
  pdep64 : M64 -> M64 -> Z -> M64;
  mulx64 : M64 -> pt_regs -> Z -> M64 * M64 * pt_regs;
  bextr64 : M64 -> M64 -> M64 -> Z -> pt_regs -> M64 * pt_regs;
  shlx64 : M64 -> M64 -> Z -> M64;
  sarx64 : M64 -> M64 -> Z -> M64;
  shrx64 : M64 -> M64 -> Z -> M64;
  rorx32 : M32 -> Z -> M32;
  andn32 : M32 -> M32 -> pt_regs -> M32 * pt_regs;
  blsr32 : M32 -> pt_regs -> M32 * pt_regs;
  blsmsk32 : M32 -> pt_regs -> M32 * pt_regs;
  blsi32 : M32 -> pt_regs -> M32 * pt_regs;
  bzhi32 : M32 -> M32 -> pt_regs -> M32 * pt_regs;
  pext32 : M32 -> M32 -> M32;
  pdep32 : M32 -> M32 -> M32;
  mulx32 : M32 -> pt_regs -> M32 * M32 * pt_regs;
  bextr32 : M32 -> M32 -> M32 -> pt_regs -> M32 * pt_regs;
  shlx32 : M32 -> M32 -> M32;
  sarx32 : M32 -> M32 -> M32;
  shrx32 : M32 -> M32 -> M32;
}.

(** How a [switch] body is left: [break] with the current [ins_size] and
    register snapshot, or [return v]. *)
Inductive switch_exit (pt_regs : Type) :=
  | Break (ins_size : Z) (regs : pt_regs)
  | Return (v : Z) (regs : pt_regs).
Arguments Break {pt_regs} ins_size regs.
Arguments Return {pt_regs} v regs.

Section Dispatch.
Context {pt_regs M64 M32 : Type} `{!bmi_h pt_regs M64 M32}.

(** The [switch] of the 64-bit branch. *)
Definition bmi_switch64 (regs : pt_regs) (m64src m64vsrc m64dst : M64)
    (vexreg opcode modreg num_dst operand_size leading_opcode simd_prefix
     imm ins_size : Z) : switch_exit pt_regs :=
  if opcode =? 0xF0 then
    if simd_prefix =? 3 then
      if leading_opcode =? 3 then
        let m64res := rorx64 m64src imm operand_size in
        let ins_size := uint8_t (ins_size + 1) in
        Break ins_size (_load_m64 num_dst m64res regs)
      else Break ins_size regs
    else Break ins_size regs
  else if opcode =? 0xF2 then
    if simd_prefix =? 0 then
      if leading_opcode =? 2 then
        let '(m64res, regs) := andn64 m64src m64vsrc operand_size regs in
        Break ins_size (_load_m64 num_dst m64res regs)
      else Break ins_size regs
    else Break ins_size regs
  else if opcode =? 0xF3 then
    if simd_prefix =? 0 then
      if leading_opcode =? 2 then
        if modreg =? 1 then
          let '(m64res, regs) := blsr64 m64src operand_size regs in
          Break ins_size (_load_m64 vexreg m64res regs)
        else if modreg =? 2 then
          let '(m64res, regs) := blsmsk64 m64src operand_size regs in
          Break ins_size (_load_m64 vexreg m64res regs)
        else if modreg =? 3 then
          let '(m64res, regs) := blsi64 m64src operand_size regs in
          Break ins_size (_load_m64 vexreg m64res regs)
        else Break ins_size regs
      else Break ins_size regs
    else Break ins_size regs
  else if opcode =? 0xF5 then
    if leading_opcode =? 2 then
      if simd_prefix =? 0 then
        let '(m64res, regs) := bzhi64 m64src m64vsrc operand_size regs in
        Break ins_size (_load_m64 num_dst m64res regs)
      else if simd_prefix =? 2 then
        let m64res := pext64 m64src m64vsrc operand_size in
        Break ins_size (_load_m64 num_dst m64res regs)
      else if simd_prefix =? 3 then
        let m64res := pdep64 m64src m64vsrc operand_size in
        Break ins_size (_load_m64 num_dst m64res regs)
      else Break ins_size regs
    else Break ins_size regs
  else if opcode =? 0xF6 then
    if simd_prefix =? 3 then
      if leading_opcode =? 2 then
        let '(m64res, m64dres, regs) := mulx64 m64src regs operand_size in
        let regs := _load_m64 num_dst m64res regs in
        Break ins_size (_load_m64 vexreg m64dres regs)
      else Break ins_size regs
    else Break ins_size regs
  else if opcode =? 0xF7 then
    if leading_opcode =? 2 then
      if simd_prefix =? 0 then
        let m64res := m64dst in
        let '(m64res, regs) := bextr64 m64src m64vsrc m64res operand_size regs in
        Break ins_size (_load_m64 num_dst m64res regs)
      else if simd_prefix =? 1 then
        let m64res := shlx64 m64src m64vsrc operand_size in
        Break ins_size (_load_m64 num_dst m64res regs)
      else if simd_prefix =? 2 then
        let m64res := sarx64 m64src m64vsrc operand_size in
        Break ins_size (_load_m64 num_dst m64res regs)
      else if simd_prefix =? 3 then
        let m64res := shrx64 m64src m64vsrc operand_size in
        Break ins_size (_load_m64 num_dst m64res regs)
      else Break ins_size regs
    else Break ins_size regs
  else Return 0 regs.

(** The [switch] of the 32-bit branch. *)
Definition bmi_switch32 (regs : pt_regs) (m32src m32vsrc m32dst : M32)
    (vexreg opcode modreg num_dst leading_opcode simd_prefix
     imm ins_size : Z) : switch_exit pt_regs :=
  if opcode =? 0xF0 then
    if simd_prefix =? 3 then
      if leading_opcode =? 3 then
        let m32res := rorx32 m32src imm in
        let ins_size := uint8_t (ins_size + 1) in
        Break ins_size (_load_m32 num_dst m32res regs)
      else Break ins_size regs
    else Break ins_size regs
  else if opcode =? 0xF2 then
    if simd_prefix =? 0 then
      if leading_opcode =? 2 then
        let '(m32res, regs) := andn32 m32src m32vsrc regs in
        Break ins_size (_load_m32 num_dst m32res regs)
      else Break ins_size regs
    else Break ins_size regs
  else if opcode =? 0xF3 then
    if simd_prefix =? 0 then
      if leading_opcode =? 2 then
        if modreg =? 1 then
          let '(m32res, regs) := blsr32 m32src regs in
          Break ins_size (_load_m32 vexreg m32res regs)
        else if modreg =? 2 then
          let '(m32res, regs) := blsmsk32 m32src regs in
          Break ins_size (_load_m32 vexreg m32res regs)
        else if modreg =? 3 then
          let '(m32res, regs) := blsi32 m32src regs in
          Break ins_size (_load_m32 vexreg m32res regs)
        else Break ins_size regs
      else Break ins_size regs
    else Break ins_size regs
  else if opcode =? 0xF5 then
    if leading_opcode =? 2 then
      if simd_prefix =? 0 then
        let '(m32res, regs) := bzhi32 m32src m32vsrc regs in
        Break ins_size (_load_m32 num_dst m32res regs)
      else if simd_prefix =? 2 then
        let m32res := pext32 m32src m32vsrc in
        Break ins_size (_load_m32 num_dst m32res regs)
      else if simd_prefix =? 3 then
        let m32res := pdep32 m32src m32vsrc in
        Break ins_size (_load_m32 num_dst m32res regs)
      else Break ins_size regs
    else Break ins_size regs
  else if opcode =? 0xF6 then
    if simd_prefix =? 3 then
      if leading_opcode =? 2 then
        let '(m32res, m32dres, regs) := mulx32 m32src regs in
        let regs := _load_m32 num_dst m32res regs in
        Break ins_size (_load_m32 vexreg m32dres regs)
      else Break ins_size regs
    else Break ins_size regs
  else if opcode =? 0xF7 then
    if leading_opcode =? 2 then
      if simd_prefix =? 0 then
        let m32res := m32dst in
        let '(m32res, regs) := bextr32 m32src m32vsrc m32res regs in
        Break ins_size (_load_m32 num_dst m32res regs)
      else if simd_prefix =? 1 then
        let m32res := shlx32 m32src m32vsrc in
        Break ins_size (_load_m32 num_dst m32res regs)
      else if simd_prefix =? 2 then
        let m32res := sarx32 m32src m32vsrc in
        Break ins_size (_load_m32 num_dst m32res regs)
      else if simd_prefix =? 3 then
        let m32res := shrx32 m32src m32vsrc in
        Break ins_size (_load_m32 num_dst m32res regs)
      else Break ins_size regs
    else Break ins_size regs
  else Return 0 regs.

(** What follows the [switch]: [return ins_size] after a [break]. *)
Definition after_switch (e : switch_exit pt_regs) : Z * pt_regs :=
  match e with
  | Break ins_size regs => (ins_size, regs)
  | Return v regs => (v, regs)
  end.

(** Bits 5..3 of the ModRM byte: right shift by 3, then mask with 0x7. *)
Definition modrm_reg (b : Z) : Z := Z.land (Z.shiftr b 3) 0x7.
(** Bits 2..0 of the ModRM byte. *)
Definition modrm_rm (b : Z) : Z := Z.land b 0x7.

(** [bmi_instruction]: the value returned together with the register
    snapshot left behind, or [None] when a byte is read outside its
    buffer. *)
Definition bmi_instruction (regs : pt_regs) (vexreg opcode : Z)
    (modrm : list Z) (high_reg high_index high_base operand_size
    leading_opcode simd_prefix : Z) (bytep : list Z) (ins_size modbyte : Z)
    : option (Z * pt_regs) :=
  b ← head modrm;
  let modreg := modrm_reg b in
  let num_dst := modrm_reg b in
  let num_src := modrm_rm b in
  let num_dst := if high_reg =? 0 then num_dst else uint8_t (num_dst + 8) in
  let num_src := if high_base =? 0 then num_src else uint8_t (num_src + 8) in
  if is_saved_state64 regs then
    let '(m64src, m64vsrc, m64dst, rmaddrs, regs) :=
      get_x64regs modrm high_reg high_index high_base vexreg regs modbyte in
    let consumed := get_consumed modrm in
    imm ← load_u8 bytep consumed;
    let ins_size := uint8_t (ins_size + consumed) in
    Some (after_switch
            (bmi_switch64 regs m64src m64vsrc m64dst vexreg opcode modreg
               num_dst operand_size leading_opcode simd_prefix imm ins_size))
  else
    let '(m32src, m32vsrc, m32dst, rmaddrs, regs) :=
      get_x64regs_m32 modrm high_reg high_index high_base vexreg regs modbyte in
    let consumed := get_consumed modrm in
    imm ← load_u8 bytep consumed;
    let ins_size := uint8_t (ins_size + consumed) in
    Some (after_switch
            (bmi_switch32 regs m32src m32vsrc m32dst vexreg opcode modreg
               num_dst leading_opcode simd_prefix imm ins_size)).

(** The effect the design document gives to blsr, blsmsk and blsi: the
    operation is applied to the source operand and its result is loaded
    into the register selected by the vvvv field. *)
Definition vex_writeback64 (op : M64 -> Z -> pt_regs -> M64 * pt_regs)
    (regs : pt_regs) (vexreg : Z) (modrm : list Z)
    (high_reg high_index high_base operand_size modbyte : Z) : pt_regs :=
  let '(m64src, _, _, _, regs) :=
    get_x64regs modrm high_reg high_index high_base vexreg regs modbyte in
  let '(m64res, regs) := op m64src operand_size regs in
  _load_m64 vexreg m64res regs.

Definition vex_writeback32 (op : M32 -> pt_regs -> M32 * pt_regs)
    (regs : pt_regs) (vexreg : Z) (modrm : list Z)
    (high_reg high_index high_base modbyte : Z) : pt_regs :=
  let '(m32src, _, _, _, regs) :=
    get_x64regs_m32 modrm high_reg high_index high_base vexreg regs modbyte in
  let '(m32res, regs) := op m32src regs in
  _load_m32 vexreg m32res regs.

(** The register snapshot after the operands have been fetched: what
    [get_x64regs] leaves behind in the branch selected by
    [is_saved_state64]. *)
Definition fetched_regs (regs : pt_regs) (vexreg : Z) (modrm : list Z)
    (high_reg high_index high_base modbyte : Z) : pt_regs :=
  if is_saved_state64 regs
  then (get_x64regs modrm high_reg high_index high_base vexreg regs modbyte).2
  else (get_x64regs_m32 modrm high_reg high_index high_base vexreg regs modbyte).2.

End Dispatch.

(** The operations the dispatcher recognises, with the (opcode, prefix
    class, opcode map, ModRM.reg) key under which each is reached. *)
Inductive bmi_op :=
  | rorx | andn | blsr | blsmsk | blsi | bzhi | pext | pdep | mulx
  | bextr | shlx | sarx | shrx.

Inductive recognized : Z -> Z -> Z -> Z -> bmi_op -> Prop :=
  | rec_rorx modreg : recognized 0xF0 3 3 modreg rorx
  | rec_andn modreg : recognized 0xF2 0 2 modreg andn
  | rec_blsr : recognized 0xF3 0 2 1 blsr
  | rec_blsmsk : recognized 0xF3 0 2 2 blsmsk
  | rec_blsi : recognized 0xF3 0 2 3 blsi
  | rec_bzhi modreg : recognized 0xF5 0 2 modreg bzhi
  | rec_pext modreg : recognized 0xF5 2 2 modreg pext
  | rec_pdep modreg : recognized 0xF5 3 2 modreg pdep
  | rec_mulx modreg : recognized 0xF6 3 2 modreg mulx
  | rec_bextr modreg : recognized 0xF7 0 2 modreg bextr
  | rec_shlx modreg : recognized 0xF7 1 2 modreg shlx
  | rec_sarx modreg : recognized 0xF7 2 2 modreg sarx
  | rec_shrx modreg : recognized 0xF7 3 2 modreg shrx.




End Bmi.

(** *** The gather and scatter operations *)

Module BitGather.
Local Open Scope Z_scope.

(** Modelled from the spec: [pdep64] and [pext64] are declared in [bmi.h],
    which is not part of the sources.  Section 4.4 of the design document:
    pdep scatters the low bits of its source into the positions selected by
    the mask; pext gathers the bits of its source selected by the mask into
    the low bits.  Both walk the mask from bit 0 upwards: [m] is the mask
    position, [k] the position among the low bits, [n] the number of mask
    positions still to visit. *)
Fixpoint pdep_loop (n m k : nat) (src mask dest : Z) : Z :=
  match n with
  | O => dest
  | S n' =>
      if Z.testbit mask (Z.of_nat m)
      then pdep_loop n' (S m) (S k) src mask
             (Z.lor dest
                (Z.shiftl (Z.b2z (Z.testbit src (Z.of_nat k))) (Z.of_nat m)))
      else pdep_loop n' (S m) k src mask dest
  end.

Definition pdep (width : nat) (src mask : Z) : Z :=
  pdep_loop width 0 0 src mask 0.

Fixpoint pext_loop (n m k : nat) (src mask dest : Z) : Z :=
  match n with
  | O => dest
  | S n' =>
      if Z.testbit mask (Z.of_nat m)
      then pext_loop n' (S m) (S k) src mask
             (Z.lor dest
                (Z.shiftl (Z.b2z (Z.testbit src (Z.of_nat m))) (Z.of_nat k)))
      else pext_loop n' (S m) k src mask dest
  end.

Definition pext (width : nat) (src mask : Z) : Z :=
  pext_loop width 0 0 src mask 0.

(** Number of set bits of [mask] among the [n] positions from [m] on. *)
Fixpoint set_bits (mask : Z) (m n : nat) : nat :=
  match n with
  | O => O
  | S n' =>
      ((if Z.testbit mask (Z.of_nat m) then 1 else 0) + set_bits mask (S m) n')%nat
  end.

Definition popcount (width : nat) (mask : Z) : nat := set_bits mask 0 width.

(** The mask that keeps as many low bits as [mask] has set bits. *)
Definition popcount_mask (width : nat) (mask : Z) : Z :=
  Z.ones (Z.of_nat (popcount width mask)).

End BitGather.

(** *** A reference implementation of the [bmi.h] interface *)

Module RefCpu.
Import Bmi.
Local Open Scope Z_scope.

(** Modelled from the spec: the helpers of [bmi.h] are not part of the
    sources.  This instance follows the operation table of section 4.4 for
    register-direct operands (section 4.3): results are computed at the
    operand width, the snapshot holds the sixteen general-purpose registers,
    and condition flags are not represented.  It supplies concrete inputs
    for the general statements below. *)
Record ref_regs := { long_mode : bool; gpr : list Z }.

Definition trunc (w x : Z) : Z := x mod 2 ^ w.

Definition reg_value (regs : ref_regs) (n : Z) : Z :=
  default 0 (gpr regs !! Z.to_nat n).

Definition set_reg (w n v : Z) (regs : ref_regs) : ref_regs :=
  {| long_mode := long_mode regs;
     gpr := <[Z.to_nat n := trunc w v]> (gpr regs) |}.

Definition width_of (operand_size : Z) : Z :=
  if operand_size =? 64 then 64 else 32.

Definition ref_operands (w : Z) (modrm : list Z) (high_reg high_base vexreg : Z)
    (regs : ref_regs) : Z * Z * Z * Z * ref_regs :=
  let b := default 0 (head modrm) in
  let num_dst := if high_reg =? 0 then modrm_reg b else modrm_reg b + 8 in
  let num_src := if high_base =? 0 then modrm_rm b else modrm_rm b + 8 in
  (trunc w (reg_value regs num_src), trunc w (reg_value regs vexreg),
   trunc w (reg_value regs num_dst), 0, regs).

Definition ref_rorx (w src imm : Z) : Z :=
  let r := imm mod w in
  trunc w (Z.lor (Z.shiftr src r) (Z.shiftl src (w - r))).
Definition ref_andn (w src1 src2 : Z) : Z := Z.land (trunc w (Z.lnot src1)) src2.
Definition ref_blsr (w src : Z) : Z := Z.land src (trunc w (src - 1)).
Definition ref_blsmsk (w src : Z) : Z := Z.lxor src (trunc w (src - 1)).
Definition ref_blsi (w src : Z) : Z := Z.land src (trunc w (- src)).
Definition ref_bzhi (w src1 src2 : Z) : Z :=
  let n := Z.land src2 0xFF in
  if n <? w then Z.land src1 (Z.ones n) else src1.
Definition ref_bextr (w src1 src2 : Z) : Z :=
  let start := Z.land src2 0xFF in
  let len := Z.land (Z.shiftr src2 8) 0xFF in
  Z.land (Z.shiftr src1 start) (Z.ones len).
Definition ref_shlx (w src1 src2 : Z) : Z := trunc w (Z.shiftl src1 (src2 mod w)).
Definition ref_shrx (w src1 src2 : Z) : Z := Z.shiftr src1 (src2 mod w).
Definition ref_sarx (w src1 src2 : Z) : Z :=
  let signed := if src1 <? 2 ^ (w - 1) then src1 else src1 - 2 ^ w in
  trunc w (Z.shiftr signed (src2 mod w)).
Definition ref_mulx (w src : Z) (regs : ref_regs) : Z * Z * ref_regs :=
  let p := src * trunc w (reg_value regs 2) in
  (p / 2 ^ w, trunc w p, regs).

#[export] Instance ref_bmi_h : bmi_h ref_regs Z Z := {|
  is_saved_state64 := long_mode;
  get_consumed := fun _ => 1;
  get_x64regs := fun modrm high_reg _ high_base vexreg regs _ =>
    ref_operands 64 modrm high_reg high_base vexreg regs;
  get_x64regs_m32 := fun modrm high_reg _ high_base vexreg regs _ =>
    ref_operands 32 modrm high_reg high_base vexreg regs;
  _load_m64 := set_reg 64;
  _load_m32 := set_reg 32;
  rorx64 := fun src imm sz => ref_rorx (width_of sz) src imm;
  andn64 := fun src vsrc sz regs => (ref_andn (width_of sz) src vsrc, regs);
  blsr64 := fun src sz regs => (ref_blsr (width_of sz) src, regs);
  blsmsk64 := fun src sz regs => (ref_blsmsk (width_of sz) src, regs);
  blsi64 := fun src sz regs => (ref_blsi (width_of sz) src, regs);
  bzhi64 := fun src vsrc sz regs => (ref_bzhi (width_of sz) src vsrc, regs);
  pext64 := fun src vsrc sz => BitGather.pext (Z.to_nat (width_of sz)) src vsrc;
  pdep64 := fun src vsrc sz => BitGather.pdep (Z.to_nat (width_of sz)) src vsrc;
  mulx64 := fun src regs sz => ref_mulx (width_of sz) src regs;
  bextr64 := fun src vsrc _ sz regs => (ref_bextr (width_of sz) src vsrc, regs);
  shlx64 := fun src vsrc sz => ref_shlx (width_of sz) src vsrc;
  sarx64 := fun src vsrc sz => ref_sarx (width_of sz) src vsrc;
  shrx64 := fun src vsrc sz => ref_shrx (width_of sz) src vsrc;
  rorx32 := fun src imm => ref_rorx 32 src imm;
  andn32 := fun src vsrc regs => (ref_andn 32 src vsrc, regs);
  blsr32 := fun src regs => (ref_blsr 32 src, regs);
  blsmsk32 := fun src regs => (ref_blsmsk 32 src, regs);
  blsi32 := fun src regs => (ref_blsi 32 src, regs);
  bzhi32 := fun src vsrc regs => (ref_bzhi 32 src vsrc, regs);
  pext32 := fun src vsrc => BitGather.pext 32 src vsrc;
  pdep32 := fun src vsrc => BitGather.pdep 32 src vsrc;
  mulx32 := fun src regs => ref_mulx 32 src regs;
  bextr32 := fun src vsrc _ regs => (ref_bextr 32 src vsrc, regs);
  shlx32 := fun src vsrc => ref_shlx 32 src vsrc;
  sarx32 := fun src vsrc => ref_sarx 32 src vsrc;
  shrx32 := fun src vsrc => ref_shrx 32 src vsrc;
|}.

(** A snapshot with register [n] holding [n + 1]. *)
Definition regs0 (long : bool) : ref_regs :=
  {| long_mode := long;
     gpr := [1; 2; 3; 4; 5; 6; 7; 8; 9; 10; 11; 12; 13; 14; 15; 16] |}.

End RefCpu.

(** *** trap_hook.c *)

Module TrapHook.
Local Open Scope Z_scope.

(** C truth value of an integer. *)
Definition nonzero (z : Z) : bool := negb (z =? 0).

Definition ENOENT : Z := 2.

Inductive ftrace_func_t := no_func | fh_ftrace_thunk.

Record ftrace_ops := { func : ftrace_func_t; flags : Z }.

(** [struct ftrace_hook].  [function] names the replacement function and
    [original] the pointer variable that receives the address of the
    original one. *)
Record ftrace_hook := {
  name : string;
  function : string;
  original : string;
  address : Z;
  ops : ftrace_ops;
}.

Definition set_address (h : ftrace_hook) (a : Z) : ftrace_hook :=
  {| name := name h; function := function h; original := original h;
     address := a; ops := ops h |}.
Definition set_ops (h : ftrace_hook) (o : ftrace_ops) : ftrace_hook :=
  {| name := name h; function := function h; original := original h;
     address := address h; ops := o |}.

(** Calls into the kernel.  A [struct ftrace_ops *] argument is given as
    the address of the hook that embeds it. *)
Inductive printk_arg := arg_s (s : string) | arg_d (d : Z).

Inductive call :=
  | register_kprobe (symbol_name : string)
  | unregister_kprobe (symbol_name : string)
  | ftrace_set_filter_ip (ops_of : nat) (ip remove reset : Z)
  | register_ftrace_function (ops_of : nat)
  | unregister_ftrace_function (ops_of : nat)
  | pr_debug (fmt : string) (arg : printk_arg)
  | pr_info (fmt : string).

(** The memory the module works on and the history of its kernel calls,
    each with the value it returned (0 for a [void] call). *)
Record kstate := {
  hook_cells : list ftrace_hook;
  vars : gmap string Z;
  klog : list (call * Z);
}.

(** The hook whose [ops] a call receives a pointer to. *)
Definition ops_arg (c : call) : option nat :=
  match c with
  | ftrace_set_filter_ip p _ _ _ | register_ftrace_function p
  | unregister_ftrace_function p => Some p
  | _ => None
  end.

(** The kernel the module is loaded into: the value each call returns, the
    address a registered kprobe reports, and what a call leaves in the
    [struct ftrace_ops] it is handed a pointer to, all depending on
    everything that happened before; the constants of its headers. *)
Class linux := {
  call_result : kstate -> call -> Z;
  kprobe_addr : kstate -> string -> Z;
  ops_written : kstate -> call -> ftrace_ops -> ftrace_ops;
  FTRACE_OPS_FL_SAVE_REGS : Z;
  FTRACE_OPS_FL_RECURSION_SAFE : Z;
  FTRACE_OPS_FL_IPMODIFY : Z;
  PTREGS_SYSCALL_STUBS : bool;
}.

(** State and fault monad: [None] is an access outside [hook_cells]. *)
Definition M (A : Type) : Type := kstate -> option (A * kstate).

Definition ret {A} (a : A) : M A := fun k => Some (a, k).

Definition bind {A B} (c : M A) (f : A -> M B) : M B :=
  fun k => match c k with Some (a, k') => f a k' | None => None end.

Notation "x <- c ;; f" := (bind c (fun x => f))
  (at level 100, c at next level, right associativity).
Notation "c ;; f" := (bind c (fun _ => f))
  (at level 100, right associativity).

Definition logged (k : kstate) (c : call) (r : Z) : kstate :=
  {| hook_cells := hook_cells k; vars := vars k; klog := klog k ++ [(c, r)] |}.

Section Module.
Context `{!linux}.

(** The hooks after the call [c]: a call that is handed [&hook->ops] may
    have written that [ops]; nothing else of the module's memory is
    reachable from its arguments. *)
Definition written (k : kstate) (c : call) : list ftrace_hook :=
  match ops_arg c with
  | Some p => alter (fun h => set_ops h (ops_written k c (ops h))) p (hook_cells k)
  | None => hook_cells k
  end.

Definition after_call (k : kstate) (c : call) (r : Z) : kstate :=
  {| hook_cells := written k c; vars := vars k; klog := klog k ++ [(c, r)] |}.

Definition invoke (c : call) : M Z :=
  fun k => let r := call_result k c in Some (r, after_call k c r).

Definition invoke_void (c : call) : M unit :=
  fun k => Some (tt, logged k c 0).

Definition kp_addr (symbol_name : string) : M Z :=
  fun k => Some (kprobe_addr k symbol_name, k).

Definition load_hook (p : nat) : M ftrace_hook :=
  fun k => match hook_cells k !! p with Some h => Some (h, k) | None => None end.

Definition store_hook (p : nat) (h : ftrace_hook) : M unit :=
  fun k => match hook_cells k !! p with
           | Some _ => Some (tt, {| hook_cells := <[p := h]> (hook_cells k);
                                    vars := vars k; klog := klog k |})
           | None => None
           end.

Definition store_var (x : string) (v : Z) : M unit :=
  fun k => Some (tt, {| hook_cells := hook_cells k;
                        vars := <[x := v]> (vars k); klog := klog k |}).

Definition fh_resolve_hook_address (hook : nat) : M Z :=
  let symbol_name := "kallsyms_lookup_name"%string in
  r <- invoke (register_kprobe symbol_name) ;;
  if r <? 0 then ret 0 else
  addr <- kp_addr symbol_name ;;
  h <- load_hook hook ;;
  store_hook hook (set_address h addr) ;;
  invoke_void (unregister_kprobe symbol_name) ;;
  h <- load_hook hook ;;
  if address h =? 0 then
    invoke_void (pr_debug "unresolved symbol: %s\n" (arg_s (name h))) ;;
    ret (- ENOENT)
  else
    store_var (original h) (address h) ;;
    ret 0.

Definition fh_install_hook (hook : nat) : M Z :=
  err <- fh_resolve_hook_address hook ;;
  if nonzero err then ret err else
  h <- load_hook hook ;;
  store_hook hook (set_ops h {| func := fh_ftrace_thunk; flags := flags (ops h) |}) ;;
  h <- load_hook hook ;;
  store_hook hook
    (set_ops h {| func := func (ops h);
                  flags := Z.lor (Z.lor FTRACE_OPS_FL_SAVE_REGS
                                        FTRACE_OPS_FL_RECURSION_SAFE)
                                 FTRACE_OPS_FL_IPMODIFY |}) ;;
  h <- load_hook hook ;;
  err <- invoke (ftrace_set_filter_ip hook (address h) 0 0) ;;
  if nonzero err then
    invoke_void (pr_debug "ftrace_set_filter_ip() failed: %d\n" (arg_d err)) ;;
    ret err
  else
  err <- invoke (register_ftrace_function hook) ;;
  if nonzero err then
    invoke_void (pr_debug "register_ftrace_function() failed: %d\n" (arg_d err)) ;;
    h <- load_hook hook ;;
    _ <- invoke (ftrace_set_filter_ip hook (address h) 1 0) ;;
    ret err
  else
  ret 0.

Definition fh_remove_hook (hook : nat) : M unit :=
  err <- invoke (unregister_ftrace_function hook) ;;
  (if nonzero err then
     invoke_void (pr_debug "unregister_ftrace_function() failed: %d\n" (arg_d err))
   else ret tt) ;;
  h <- load_hook hook ;;
  err <- invoke (ftrace_set_filter_ip hook (address h) 1 0) ;;
  if nonzero err then
    invoke_void (pr_debug "ftrace_set_filter_ip() failed: %d\n" (arg_d err))
  else ret tt.

(** The [for] loop of [fh_install_hooks] from index [i] with [n] indices
    left; it yields [err] and the index at which it stopped. *)
Fixpoint install_loop (hooks n i : nat) : M (Z * nat) :=
  match n with
  | O => ret (0, i)
  | S n' =>
      err <- fh_install_hook (hooks + i) ;;
      if nonzero err then ret (err, i) else install_loop hooks n' (S i)
  end.

(** The [while (i != 0)] loop after the [error] label. *)
Fixpoint rollback_loop (hooks i : nat) : M unit :=
  match i with
  | O => ret tt
  | S i' => fh_remove_hook (hooks + i') ;; rollback_loop hooks i'
  end.

Definition fh_install_hooks (hooks count : nat) : M Z :=
  r <- install_loop hooks count 0 ;;
  let '(err, i) := r in
  if nonzero err then rollback_loop hooks i ;; ret err else ret 0.

Fixpoint remove_loop (hooks n i : nat) : M unit :=
  match n with
  | O => ret tt
  | S n' => fh_remove_hook (hooks + i) ;; remove_loop hooks n' (S i)
  end.

Definition fh_remove_hooks (hooks count : nat) : M unit :=
  remove_loop hooks count 0.

Definition SYSCALL_NAME (s : string) : string :=
  if PTREGS_SYSCALL_STUBS then ("__x64_" +:+ s)%string else s.

Definition HOOK (_name _function _original : string) : ftrace_hook :=
  {| name := SYSCALL_NAME _name; function := _function; original := _original;
     address := 0; ops := {| func := no_func; flags := 0 |} |}.

(** The static array [demo_hooks], placed at address 0 of [hook_cells]. *)
Definition demo_hooks_init : list ftrace_hook :=
  [HOOK "do_error_trap" "fh_do_error_trap" "orig_do_error_trap"].
Definition demo_hooks : nat := 0%nat.
Definition ARRAY_SIZE_demo_hooks : nat := length demo_hooks_init.

(** The state in which the module is loaded. *)
Definition module_image : kstate :=
  {| hook_cells := demo_hooks_init; vars := ∅; klog := [] |}.

Definition fh_init : M Z :=
  err <- fh_install_hooks demo_hooks ARRAY_SIZE_demo_hooks ;;
  if nonzero err then ret err else
  invoke_void (pr_info "module loaded\n") ;;
  ret 0.

Definition fh_exit : M unit :=
  fh_remove_hooks demo_hooks ARRAY_SIZE_demo_hooks ;;
  invoke_void (pr_info "module unloaded\n").

End Module.

(** Hooks registered with ftrace (a [register_ftrace_function] call that
    returned 0), unregistered, and removed from the filter, in the order of
    the calls. *)
Definition registered (l : list (call * Z)) : list nat :=
  omap (fun e => match e with
                 | (register_ftrace_function p, r) =>
                     if nonzero r then None else Some p
                 | _ => None
                 end) l.

Definition unregistered (l : list (call * Z)) : list nat :=
  omap (fun e => match e with
                 | (unregister_ftrace_function p, _) => Some p
                 | _ => None
                 end) l.

Definition unfiltered (l : list (call * Z)) : list nat :=
  omap (fun e => match e with
                 | (ftrace_set_filter_ip p _ 1 _, _) => Some p
                 | _ => None
                 end) l.

(** The ftrace calls of a history, without the kprobe and printk calls. *)
Definition is_ftrace_call (e : call * Z) : bool :=
  match e.1 with
  | ftrace_set_filter_ip _ _ _ _ | register_ftrace_function _
  | unregister_ftrace_function _ => true
  | _ => false
  end.

Definition ftrace_calls (l : list (call * Z)) : list (call * Z) :=
  List.filter is_ftrace_call l.

(** [runs c k a k' l]: from state [k] the computation [c] returns [a] in
    state [k'], having appended the calls [l] to the history and kept the
    extent of [hook_cells]. *)
Definition runs {A} (c : M A) (k : kstate) (a : A) (k' : kstate)
    (l : list (call * Z)) : Prop :=
  c k = Some (a, k')
  /\ klog k' = klog k ++ l
  /\ length (hook_cells k') = length (hook_cells k).

(** [wp c k Q]: from [k] the computation [c] returns, and its result, final
    state and calls satisfy [Q]. *)
Definition wp {A} (c : M A) (k : kstate)
    (Q : A -> kstate -> list (call * Z) -> Prop) : Prop :=
  exists a k' l, runs c k a k' l /\ Q a k' l.

(** The [pr_debug] line that follows a failed kernel call. *)
Definition debug_on_failure (fmt : string) (err : Z) : list (call * Z) :=
  if nonzero err then [(pr_debug fmt (arg_d err), 0)] else [].

(** The calls of one [fh_remove_hook] on the hook at [p] with entry address
    [ip], the two kernel calls returning [r1] and [r2]. *)
Definition removal_calls (p : nat) (ip r1 r2 : Z) : list (call * Z) :=
  [(unregister_ftrace_function p, r1)]
  ++ debug_on_failure "unregister_ftrace_function() failed: %d\n" r1
  ++ [(ftrace_set_filter_ip p ip 1 0, r2)]
  ++ debug_on_failure "ftrace_set_filter_ip() failed: %d\n" r2.

(** **** What a history leaves behind in ftrace *)

(** A registration of a hook's [ops], or a filter entry of a hook's [ops]
    on an address. *)
Inductive resource :=
  | Registration (p : nat)
  | Filter (p : nat) (ip : Z).

#[export] Instance resource_eq_dec : EqDecision resource.
Proof. solve_decision. Defined.

(** The hook a resource belongs to. *)
Definition hook_of (x : resource) : nat :=
  match x with Registration p | Filter p _ => p end.

(** A call that returned 0 takes ([true]) or gives back ([false]) a
    resource; a failed call changes nothing. *)
Definition effect_of (e : call * Z) : option (bool * resource) :=
  match e with
  | (register_ftrace_function p, r) =>
      if nonzero r then None else Some (true, Registration p)
  | (unregister_ftrace_function p, r) =>
      if nonzero r then None else Some (false, Registration p)
  | (ftrace_set_filter_ip p ip remove _, r) =>
      if nonzero r then None else Some (negb (nonzero remove), Filter p ip)
  | _ => None
  end.

Definition hold (acc : list resource) (e : call * Z) : list resource :=
  match effect_of e with
  | Some (true, x) => acc ++ [x]
  | Some (false, x) => List.filter (fun y => negb (bool_decide (y = x))) acc
  | None => acc
  end.

(** The resources held after the history [l], starting from [acc]. *)
Definition held_from (acc : list resource) (l : list (call * Z)) : list resource :=
  fold_left hold l acc.


(** Calls that undo an installation step. *)
Definition is_removal (c : call) : bool :=
  match c with
  | unregister_ftrace_function _ => true
  | ftrace_set_filter_ip _ _ remove _ => nonzero remove
  | _ => false
  end.

Definition removals_succeeded (l : list (call * Z)) : Prop :=
  Forall (fun e => is_removal e.1 = true -> e.2 = 0) l.

(** The entry address of the hook at [p]. *)
Definition addr_at (cells : list ftrace_hook) (p : nat) : Z :=
  default 0 (address <$> cells !! p).

(** What the installed hooks [hooks .. hooks + n - 1] hold. *)
Definition installed_resources (cells : list ftrace_hook) (hooks n : nat)
    : list resource :=
  flat_map (fun p => [Filter p (addr_at cells p); Registration p]) (seq hooks n).

(** **** Outcomes of one installation *)

(** The kprobe calls of [fh_resolve_hook_address], [r] being what
    [register_kprobe] returned. *)
Definition kprobe_calls (r : Z) : list (call * Z) :=
  (register_kprobe "kallsyms_lookup_name", r)
  :: (if r <? 0 then [] else [(unregister_kprobe "kallsyms_lookup_name", 0)]).

Section Outcomes.
Context `{!linux}.

Definition initial_ops : ftrace_ops :=
  {| func := fh_ftrace_thunk;
     flags := Z.lor (Z.lor FTRACE_OPS_FL_SAVE_REGS FTRACE_OPS_FL_RECURSION_SAFE)
                    FTRACE_OPS_FL_IPMODIFY |}.

(** A kernel that never writes the [ops] it is handed. *)
Definition ops_untouched : Prop := forall k c o, ops_written k c o = o.

(** The address resolution inside an installation that got as far as the
    ftrace calls: [r] is what [register_kprobe] returned, [reported] the
    address the kprobe reported, [a] the address the hook ends with and
    [vs'] the variables.  When the kprobe was refused the address and the
    variables are left as they were. *)
Definition resolved (h : ftrace_hook) (vs : gmap string Z) (r reported a : Z)
    (vs' : gmap string Z) : Prop :=
  (r < 0 /\ a = address h /\ vs' = vs)
  \/ (0 <= r /\ a = reported /\ a <> 0 /\ vs' = <[original h := a]> vs).

(** [install_result p h vs r reported err h' vs' l]: one [fh_install_hook]
    on the hook [h] at [p], with variables [vs], returns [err], leaves
    the hook [h'] and the variables [vs'] and makes the calls [l]. *)
Inductive install_result (p : nat) (h : ftrace_hook) (vs : gmap string Z)
    (r reported : Z)
    : Z -> ftrace_hook -> gmap string Z -> list (call * Z) -> Prop :=
  | install_unresolved :
      0 <= r -> reported = 0 ->
      install_result p h vs r reported (- ENOENT) (set_address h 0) vs
        (kprobe_calls r
         ++ [(pr_debug "unresolved symbol: %s\n" (arg_s (name h)), 0)])
  | install_filter_failed a vs' o e :
      resolved h vs r reported a vs' -> e <> 0 ->
      (ops_untouched -> o = initial_ops) ->
      install_result p h vs r reported e (set_ops (set_address h a) o) vs'
        (kprobe_calls r
         ++ [(ftrace_set_filter_ip p a 0 0, e);
             (pr_debug "ftrace_set_filter_ip() failed: %d\n" (arg_d e), 0)])
  | install_register_failed a vs' o e r3 :
      resolved h vs r reported a vs' -> e <> 0 ->
      (ops_untouched -> o = initial_ops) ->
      install_result p h vs r reported e (set_ops (set_address h a) o) vs'
        (kprobe_calls r
         ++ [(ftrace_set_filter_ip p a 0 0, 0);
             (register_ftrace_function p, e);
             (pr_debug "register_ftrace_function() failed: %d\n" (arg_d e), 0);
             (ftrace_set_filter_ip p a 1 0, r3)])
  | install_done a vs' o :
      resolved h vs r reported a vs' ->
      (ops_untouched -> o = initial_ops) ->
      install_result p h vs r reported 0 (set_ops (set_address h a) o) vs'
        (kprobe_calls r
         ++ [(ftrace_set_filter_ip p a 0 0, 0);
             (register_ftrace_function p, 0)]).

(** What [register_kprobe] returns in state [k] and the address the kprobe
    then reports. *)
Definition kprobe_result (k : kstate) : Z :=
  call_result k (register_kprobe "kallsyms_lookup_name").

Definition kprobe_reported (k : kstate) : Z :=
  kprobe_addr (logged k (register_kprobe "kallsyms_lookup_name") (kprobe_result k))
    "kallsyms_lookup_name".

(** [installed_run p n k k' l]: from [k], the [n] hooks from [p] on were
    installed one after the other, each installation returning 0; the
    calls made are [l] and the final state is [k']. *)
Inductive installed_run : nat -> nat -> kstate -> kstate -> list (call * Z) -> Prop :=
  | run_done p k : installed_run p 0 k k []
  | run_step p n k k1 k2 h h' l1 l2 :
      hook_cells k !! p = Some h ->
      install_result p h (vars k) (kprobe_result k) (kprobe_reported k)
        0 h' (vars k1) l1 ->
      hook_cells k1 = <[p := h']> (hook_cells k) ->
      klog k1 = klog k ++ l1 ->
      installed_run (S p) n k1 k2 l2 ->
      installed_run p (S n) k k2 (l1 ++ l2).

End Outcomes.

(** **** The replacement trap handler *)

(** [user_mode] is a kernel macro and [opemu_utrap] is declared in
    [optrap.h]; [do_error_trap] is the kernel function that
    [orig_do_error_trap] points to once the hook is installed.  Each may
    update the register snapshot it is given. *)
Class trap_env (pt_regs : Type) := {
  user_mode : pt_regs -> bool;
  opemu_utrap : pt_regs -> Z * pt_regs;
  do_error_trap : pt_regs -> Z -> string -> Z -> Z -> pt_regs;
}.

(** Calls made while a trap is handled, with their arguments. *)
Inductive trap_call (pt_regs : Type) :=
  | called_opemu_utrap (regs : pt_regs)
  | called_orig_do_error_trap (regs : pt_regs) (error_code : Z) (str : string)
      (trapnr signr : Z).
Arguments called_opemu_utrap {pt_regs} regs.
Arguments called_orig_do_error_trap {pt_regs} regs error_code str trapnr signr.

Section Traps.
Context {pt_regs : Type} `{!trap_env pt_regs}.

(** Each function yields its return value (if any), the register snapshot
    it leaves and the calls it made. *)
Definition kernel_trap (regs : pt_regs) (trapnr : Z)
    : Z * pt_regs * list (trap_call pt_regs) :=
  (0, regs, []).

Definition user_trap (regs : pt_regs) (trapnr : Z)
    : Z * pt_regs * list (trap_call pt_regs) :=
  if trapnr =? 6 then
    let '(r, regs') := opemu_utrap regs in
    if nonzero r then (1, regs', [called_opemu_utrap regs])
    else (0, regs', [called_opemu_utrap regs])
  else (0, regs, []).

Definition orig_do_error_trap (regs : pt_regs) (error_code : Z) (str : string)
    (trapnr signr : Z) : pt_regs * list (trap_call pt_regs) :=
  (do_error_trap regs error_code str trapnr signr,
   [called_orig_do_error_trap regs error_code str trapnr signr]).

Definition fh_do_error_trap (regs : pt_regs) (error_code : Z) (str : string)
    (trapnr signr : Z) : pt_regs * list (trap_call pt_regs) :=
  let '(handled, regs, t) :=
    if user_mode regs then user_trap regs trapnr else kernel_trap regs trapnr in
  if nonzero handled then (regs, t)
  else
    let '(regs, t') := orig_do_error_trap regs error_code str trapnr signr in
    (regs, t ++ t').

(** The value [user_trap] or [kernel_trap] returns for this fault. *)
Definition trap_handled (regs : pt_regs) (trapnr : Z) : Z :=
  if user_mode regs then (user_trap regs trapnr).1.1
  else (kernel_trap regs trapnr).1.1.

Definition is_orig_call (c : trap_call pt_regs) : bool :=
  match c with called_orig_do_error_trap _ _ _ _ _ => true | _ => false end.

Definition is_emulation (c : trap_call pt_regs) : bool :=
  match c with called_opemu_utrap _ => true | _ => false end.

(** How often the original handler was called. *)
Definition orig_calls (t : list (trap_call pt_regs)) : nat :=
  length (List.filter is_orig_call t).

End Traps.

(** **** Sample environments *)

(** A kernel that refuses every kprobe with -EINVAL and accepts every
    ftrace call. *)
Definition kprobes_refused : linux := {|
  call_result := fun _ c => match c with register_kprobe _ => -22 | _ => 0 end;
  kprobe_addr := fun _ _ => 0;
  ops_written := fun _ _ o => o;
  FTRACE_OPS_FL_SAVE_REGS := 2;
  FTRACE_OPS_FL_RECURSION_SAFE := 16;
  FTRACE_OPS_FL_IPMODIFY := 128;
  PTREGS_SYSCALL_STUBS := true;
|}.

(** A kernel in which kprobes resolve to a fixed address and every ftrace
    call fails with -EBUSY. *)
Definition ftrace_busy : linux := {|
  call_result := fun _ c =>
    match c with
    | register_kprobe _ => 0
    | ftrace_set_filter_ip _ _ _ _ | register_ftrace_function _
    | unregister_ftrace_function _ => -16
    | _ => 0
    end;
  kprobe_addr := fun _ _ => 0xffffffff81000000;
  ops_written := fun _ _ o => o;
  FTRACE_OPS_FL_SAVE_REGS := 2;
  FTRACE_OPS_FL_RECURSION_SAFE := 16;
  FTRACE_OPS_FL_IPMODIFY := 128;
  PTREGS_SYSCALL_STUBS := true;
|}.

(** A kernel in which kprobes resolve to a fixed address and every call
    succeeds. *)
Definition ftrace_ready : linux := {|
  call_result := fun _ _ => 0;
  kprobe_addr := fun _ _ => 0xffffffff81000000;
  ops_written := fun _ _ o => o;
  FTRACE_OPS_FL_SAVE_REGS := 2;
  FTRACE_OPS_FL_RECURSION_SAFE := 16;
  FTRACE_OPS_FL_IPMODIFY := 128;
  PTREGS_SYSCALL_STUBS := true;
|}.



(** A kernel that accepts every call and marks registered [ops] with the
    flag bit 1 (enabled). *)
Definition ftrace_enabling : linux := {|
  call_result := fun _ _ => 0;
  kprobe_addr := fun _ _ => 0xffffffff81000000;
  ops_written := fun _ c o =>
    match c with
    | register_ftrace_function _ =>
        {| func := func o; flags := Z.lor (flags o) 1 |}
    | _ => o
    end;
  FTRACE_OPS_FL_SAVE_REGS := 2;
  FTRACE_OPS_FL_RECURSION_SAFE := 16;
  FTRACE_OPS_FL_IPMODIFY := 128;
  PTREGS_SYSCALL_STUBS := true;
|}.

(** An array of two hooks: the one of [demo_hooks] and the one its
    initialiser keeps commented out. *)
Definition two_hooks : kstate :=
  {| hook_cells :=
       [{| name := "__x64_do_error_trap"; function := "fh_do_error_trap";
           original := "orig_do_error_trap"; address := 0;
           ops := {| func := no_func; flags := 0 |} |};
        {| name := "__x64_do_trap"; function := "fh_do_trap";
           original := "orig_do_trap"; address := 0;
           ops := {| func := no_func; flags := 0 |} |}];
     vars := ∅; klog := [] |}.

(** A register snapshot reduced to its privilege level and instruction
    pointer, with an emulator that handles every instruction as five bytes
    long and an original handler that leaves the snapshot alone. *)
Record sample_regs := { cpl_user : bool; ip : Z }.

Definition always_emulates : trap_env sample_regs := {|
  user_mode := cpl_user;
  opemu_utrap := fun r => (1, {| cpl_user := cpl_user r; ip := ip r + 5 |});
  do_error_trap := fun r _ _ _ _ => r;
|}.

End TrapHook.

(** ** Part II: properties *)

(** *** The dispatcher of bmi.c *)

Module BmiFacts.
Import Bmi.
Local Open Scope Z_scope.

Lemma uint8_t_idemp_add (a c : Z) : uint8_t (uint8_t a + c) = uint8_t (a + c).
Proof. unfold uint8_t. apply Zplus_mod_idemp_l. Qed.


Section Dispatch.
Context {pt_regs M64 M32 : Type} `{!bmi_h pt_regs M64 M32}.
Implicit Types (regs : pt_regs) (modrm bytep : list Z).

(** Once the two byte reads succeed, the call is the [switch] of the
    branch selected by [is_saved_state64]. *)
Lemma bmi_instruction_defined regs vexreg opcode modrm high_reg high_index
    high_base operand_size leading_opcode simd_prefix bytep ins_size modbyte
    b imm :
  head modrm = Some b ->
  load_u8 bytep (get_consumed modrm) = Some imm ->
  bmi_instruction regs vexreg opcode modrm high_reg high_index high_base
    operand_size leading_opcode simd_prefix bytep ins_size modbyte
  = Some (after_switch
      (if is_saved_state64 regs then
         let '(m64src, m64vsrc, m64dst, _, regs1) :=
           get_x64regs modrm high_reg high_index high_base vexreg regs modbyte in
         bmi_switch64 regs1 m64src m64vsrc m64dst vexreg opcode (modrm_reg b)
           (if high_reg =? 0 then modrm_reg b else uint8_t (modrm_reg b + 8)) operand_size leading_opcode simd_prefix imm
           (uint8_t (ins_size + get_consumed modrm))
       else
         let '(m32src, m32vsrc, m32dst, _, regs1) :=
           get_x64regs_m32 modrm high_reg high_index high_base vexreg regs modbyte in
         bmi_switch32 regs1 m32src m32vsrc m32dst vexreg opcode (modrm_reg b)
           (if high_reg =? 0 then modrm_reg b else uint8_t (modrm_reg b + 8)) leading_opcode simd_prefix imm
           (uint8_t (ins_size + get_consumed modrm)))).
Proof.
  intros Hb Himm. unfold bmi_instruction. rewrite Hb. cbn [mbind option_bind].
  destruct (is_saved_state64 regs).
  - destruct (get_x64regs _ _ _ _ _ _ _) as [[[[s v] d] a] r].
    rewrite Himm. reflexivity.
  - destruct (get_x64regs_m32 _ _ _ _ _ _ _) as [[[[s v] d] a] r].
    rewrite Himm. reflexivity.
Qed.




(** C10.  Whatever the opcode, the call reads the ModRM byte and then the
    byte of [bytep] at index [get_consumed modrm]: it is defined exactly
    when both reads are, also for opcodes without an immediate and for
    opcodes that reach the [default] case. *)
Theorem bmi_instruction_reads_imm_slot regs vexreg opcode modrm high_reg
    high_index high_base operand_size leading_opcode simd_prefix bytep
    ins_size modbyte :
  is_Some (bmi_instruction regs vexreg opcode modrm high_reg high_index
             high_base operand_size leading_opcode simd_prefix bytep ins_size
             modbyte)
  <-> is_Some (head modrm) /\ is_Some (load_u8 bytep (get_consumed modrm)).
Proof.
  split.
  - intros Hdef. unfold bmi_instruction in Hdef.
    destruct (head modrm) as [b|]; cbn [mbind option_bind] in Hdef;
      [|by destruct Hdef].
    split; [by eexists|].
    destruct (load_u8 bytep (get_consumed modrm)); [by eexists|].
    destruct (is_saved_state64 regs).
    + destruct (get_x64regs _ _ _ _ _ _ _) as [[[[s v] d] a] r].
      by destruct Hdef.
    + destruct (get_x64regs_m32 _ _ _ _ _ _ _) as [[[[s v] d] a] r].
      by destruct Hdef.
  - intros [[b Hb] [imm Himm]].
    rewrite (bmi_instruction_defined _ _ _ _ _ _ _ _ _ _ _ _ _ b imm Hb Himm).
    by eexists.
Qed.

(** An opcode byte outside the six [case] labels reaches [default]: the
    call returns 0. *)
Lemma bmi_instruction_default regs vexreg opcode modrm high_reg high_index
    high_base operand_size leading_opcode simd_prefix bytep ins_size modbyte
    b imm :
  head modrm = Some b ->
  load_u8 bytep (get_consumed modrm) = Some imm ->
  opcode ∉ [0xF0; 0xF2; 0xF3; 0xF5; 0xF6; 0xF7] ->
  exists regs',
    bmi_instruction regs vexreg opcode modrm high_reg high_index high_base
      operand_size leading_opcode simd_prefix bytep ins_size modbyte
    = Some (0, regs').
Proof.
  intros Hb Himm Hop.
  rewrite (bmi_instruction_defined _ _ _ _ _ _ _ _ _ _ _ _ _ b imm Hb Himm).
  assert (Hne : forall c, c ∈ [0xF0; 0xF2; 0xF3; 0xF5; 0xF6; 0xF7] ->
                          (opcode =? c) = false).
  { intros c Hc. apply Z.eqb_neq. intros ->. done. }
  destruct (is_saved_state64 regs).
  - destruct (get_x64regs _ _ _ _ _ _ _) as [[[[s v] d] a] r].
    unfold bmi_switch64. rewrite !Hne by set_solver. by eexists.
  - destruct (get_x64regs_m32 _ _ _ _ _ _ _) as [[[[s v] d] a] r].
    unfold bmi_switch32. rewrite !Hne by set_solver. by eexists.
Qed.

(** C3.  With opcode 0xF3, no SIMD prefix and map 0F38, ModRM.reg = 1, 2, 3
    runs blsr, blsmsk, blsi, and in each case the result is loaded into
    the register indexed by [vexreg]; the index derived from ModRM.reg or
    ModRM.rm plays no part.  The returned count is [ins_size] plus
    [get_consumed modrm], as a [uint8_t]. *)
Theorem blsx_writes_vexreg regs vexreg modrm high_reg high_index high_base
    operand_size bytep ins_size modbyte b imm :
  head modrm = Some b ->
  load_u8 bytep (get_consumed modrm) = Some imm ->
  let run op64 op32 :=
    Some (uint8_t (ins_size + get_consumed modrm),
          if is_saved_state64 regs
          then vex_writeback64 op64 regs vexreg modrm high_reg high_index
                 high_base operand_size modbyte
          else vex_writeback32 op32 regs vexreg modrm high_reg high_index
                 high_base modbyte) in
  let result :=
    bmi_instruction regs vexreg 0xF3 modrm high_reg high_index high_base
      operand_size 2 0 bytep ins_size modbyte in
  (modrm_reg b = 1 -> result = run blsr64 blsr32)
  /\ (modrm_reg b = 2 -> result = run blsmsk64 blsmsk32)
  /\ (modrm_reg b = 3 -> result = run blsi64 blsi32).
Proof.
  intros Hb Himm run result. subst run result.
  rewrite (bmi_instruction_defined _ _ _ _ _ _ _ _ _ _ _ _ _ b imm Hb Himm).
  unfold vex_writeback64, vex_writeback32, bmi_switch64, bmi_switch32.
  repeat split; intros ->; cbn [Z.eqb Pos.eqb];
    destruct (is_saved_state64 regs);
    repeat match goal with
           | |- context [let '(_, _) := ?e in _] => destruct e
           end; reflexivity.
Qed.



End Dispatch.

(** **** Concrete runs on the reference implementation *)

Import RefCpu.

(** C1.  Opcode 0xF0 with prefix class none and map 0F38 is no recognised
    combination, yet the call does not return 0: the [case] is left by
    [break] and the call returns the byte count 4 + 1, with the registers
    untouched. *)
Theorem known_opcode_wrong_prefix_returns_size :
  (forall op, ~ recognized 0xF0 0 2 (modrm_reg 0xC0) op)
  /\ bmi_instruction (regs0 true) 0 0xF0 [0xC0] 0 0 0 64 2 0 [0xC0; 0x90] 4 0xC0
     = Some (5, regs0 true)
  /\ bmi_instruction (regs0 false) 0 0xF0 [0xC0] 0 0 0 32 2 0 [0xC0; 0x90] 4 0xC0
     = Some (5, regs0 false).
Proof.
  split; [|split; reflexivity].
  intros op Hrec. inversion Hrec.
Qed.

(** The same with opcode 0xF3 in its own prefix class and map but
    ModRM.reg = 0, which selects none of blsr, blsmsk, blsi. *)
Example blsx_unused_reg_field_returns_size :
  (forall op, ~ recognized 0xF3 0 2 (modrm_reg 0xC0) op)
  /\ bmi_instruction (regs0 true) 0 0xF3 [0xC0] 0 0 0 64 2 0 [0xC0; 0x90] 4 0xC0
     = Some (5, regs0 true).
Proof.
  split; [|reflexivity].
  intros op Hrec. inversion Hrec.
Qed.

(** An opcode byte without a [case] label does return 0. *)
Example unknown_opcode_returns_zero :
  bmi_instruction (regs0 true) 0 0xF1 [0xC0] 0 0 0 64 2 0 [0xC0; 0x90] 4 0xC0
  = Some (0, regs0 true).
Proof. reflexivity. Qed.

Lemma blsx_writes_vexreg_witness :
  head [0xCD] = Some 0xCD
  /\ load_u8 [0xCD; 0x90] (get_consumed [0xCD]) = Some 0x90
  /\ modrm_reg 0xCD = 1
  /\ bmi_instruction (regs0 true) 7 0xF3 [0xCD] 0 0 0 64 2 0 [0xCD; 0x90] 4 0xCD
     = Some (5, set_reg 64 7 4 (regs0 true)).
Proof.
  split; [reflexivity|]. split; [reflexivity|]. split; [reflexivity|].
  pose proof (blsx_writes_vexreg (regs0 true) 7 [0xCD] 0 0 0 64 [0xCD; 0x90] 4
                0xCD 0xCD 0x90 eq_refl eq_refl) as H.
  cbv zeta in H. destruct H as [H _]. rewrite H; reflexivity.
Defined.

(** blsr on register 5 (holding 6) with vvvv = 7 and ModRM.reg = 1: the
    result 4 lands in register 7; register 1 keeps its value. *)
Example blsr_destination :
  (gpr <$> (snd <$> bmi_instruction (regs0 true) 7 0xF3 [0xCD] 0 0 0 64 2 0
                      [0xCD; 0x90] 4 0xCD))
  = Some [1; 2; 3; 4; 5; 6; 7; 4; 9; 10; 11; 12; 13; 14; 15; 16].
Proof. reflexivity. Qed.


(** The size bound is needed: a [uint8_t] counter wraps.  With [ins_size]
    255 and one byte consumed the recognised andn runs, and the call
    returns 0. *)
Example byte_count_wraps_at_256 :
  recognized 0xF2 0 2 (modrm_reg 0xC0) andn
  /\ exists regs',
       bmi_instruction (regs0 true) 0 0xF2 [0xC0] 0 0 0 64 2 0 [0xC0; 0x90] 255 0xC0
       = Some (0, regs').
Proof.
  split; [constructor|]. eexists. reflexivity.
Qed.

End BmiFacts.

(** *** Gather after scatter *)

Module BitGatherFacts.
Import BitGather.
Local Open Scope Z_scope.

Lemma b2z_shiftl_bit (b : bool) (m j : nat) :
  Z.testbit (Z.shiftl (Z.b2z b) (Z.of_nat m)) (Z.of_nat j)
  = b && bool_decide (j = m).
Proof.
  rewrite Z.shiftl_spec by lia.
  case_bool_decide as E.
  - subst j. rewrite Z.sub_diag, Z.b2z_bit0. by destruct b.
  - rewrite andb_false_r.
    destruct (decide (j < m)%nat).
    + apply Z.testbit_neg_r. lia.
    + destruct b; cbn [Z.b2z]; [|apply Z.bits_0].
      replace (Z.of_nat j - Z.of_nat m) with (Z.succ (Z.of_nat (j - m - 1))) by lia.
      change 1 with (2 * 0 + Z.b2z true). rewrite Z.testbit_succ_r by lia.
      apply Z.bits_0.
Qed.

(** The low [k] bits of [x] together with bit [k] are its low [k + 1] bits. *)
Lemma low_bits_extend (x : Z) (k : nat) :
  Z.lor (Z.land x (Z.ones (Z.of_nat k)))
        (Z.shiftl (Z.b2z (Z.testbit x (Z.of_nat k))) (Z.of_nat k))
  = Z.land x (Z.ones (Z.of_nat (S k))).
Proof.
  apply Z.bits_inj'. intros j Hj.
  rewrite <- (Z2Nat.id j Hj). set (i := Z.to_nat j).
  rewrite Z.lor_spec, !Z.land_spec, b2z_shiftl_bit.
  rewrite !Z.testbit_ones_nonneg by lia.
  case_bool_decide as E.
  - subst i. rewrite (proj2 (Z.ltb_ge _ _)) by lia.
    rewrite (proj2 (Z.ltb_lt _ _)) by lia.
    rewrite E. by destruct (Z.testbit x (Z.of_nat k)).
  - rewrite andb_false_r, orb_false_r. f_equal.
    destruct (decide (i < k)%nat).
    + by rewrite !(proj2 (Z.ltb_lt _ _)) by lia.
    + by rewrite !(proj2 (Z.ltb_ge _ _)) by lia.
Qed.

Lemma set_bits_S mask m n :
  set_bits mask m (S n)
  = ((if Z.testbit mask (Z.of_nat m) then 1 else 0) + set_bits mask (S m) n)%nat.
Proof. reflexivity. Qed.

(** The scatter loop leaves the bits below its current position alone. *)
Lemma pdep_loop_below n : forall m k src mask dest (j : nat),
  (j < m)%nat ->
  Z.testbit (pdep_loop n m k src mask dest) (Z.of_nat j)
  = Z.testbit dest (Z.of_nat j).
Proof.
  induction n as [|n IH]; intros m k src mask dest j Hj; cbn [pdep_loop]; [done|].
  destruct (Z.testbit mask (Z.of_nat m)).
  - rewrite IH by lia. rewrite Z.lor_spec, b2z_shiftl_bit.
    rewrite bool_decide_eq_false_2 by lia. by rewrite andb_false_r, orb_false_r.
  - apply IH. lia.
Qed.

(** Bit [m + d] of the scattered value: set when the mask selects the
    position and the source bit of matching rank is set. *)
Lemma pdep_loop_bits n : forall m k src mask dest (d : nat),
  (forall j : nat, (m <= j)%nat -> Z.testbit dest (Z.of_nat j) = false) ->
  (d < n)%nat ->
  Z.testbit (pdep_loop n m k src mask dest) (Z.of_nat (m + d))
  = Z.testbit mask (Z.of_nat (m + d))
    && Z.testbit src (Z.of_nat (k + set_bits mask m d)).
Proof.
  induction n as [|n IH]; intros m k src mask dest d Hz Hd; [lia|].
  cbn [pdep_loop]. destruct (Z.testbit mask (Z.of_nat m)) eqn:Hm.
  - destruct d as [|d].
    + rewrite Nat.add_0_r, pdep_loop_below by lia.
      rewrite Z.lor_spec, b2z_shiftl_bit. rewrite Hz by lia. rewrite Hm.
      rewrite bool_decide_eq_true_2 by done. cbn [set_bits orb andb].
      by rewrite Nat.add_0_r, andb_true_r.
    + replace (m + S d)%nat with (S m + d)%nat by lia.
      rewrite IH; [|  |lia].
      * rewrite set_bits_S, Hm. do 3 f_equal. lia.
      * intros j Hj. rewrite Z.lor_spec, b2z_shiftl_bit, Hz by lia.
        rewrite bool_decide_eq_false_2 by lia. by rewrite andb_false_r.
  - destruct d as [|d].
    + rewrite Nat.add_0_r, pdep_loop_below by lia.
      rewrite Hz by lia. by rewrite Hm.
    + replace (m + S d)%nat with (S m + d)%nat by lia.
      rewrite IH; [|  |lia].
      * by rewrite set_bits_S, Hm.
      * intros j Hj. apply Hz. lia.
Qed.

(** Gathering from a source that carries, at every selected position, the
    bit of [x] of matching rank rebuilds the low bits of [x]. *)
Lemma pext_loop_gathers x src mask n : forall m k,
  (forall d : nat, (d < n)%nat -> Z.testbit mask (Z.of_nat (m + d)) = true ->
     Z.testbit src (Z.of_nat (m + d))
     = Z.testbit x (Z.of_nat (k + set_bits mask m d))) ->
  pext_loop n m k src mask (Z.land x (Z.ones (Z.of_nat k)))
  = Z.land x (Z.ones (Z.of_nat (k + set_bits mask m n))).
Proof.
  induction n as [|n IH]; intros m k Hsrc.
  - cbn [pext_loop set_bits]. by rewrite Nat.add_0_r.
  - cbn [pext_loop]. rewrite set_bits_S.
    destruct (Z.testbit mask (Z.of_nat m)) eqn:Hm.
    + pose proof (Hsrc 0%nat) as H0. cbn [set_bits] in H0.
      rewrite !Nat.add_0_r in H0. rewrite H0 by (done || lia).
      rewrite low_bits_extend, IH.
      * do 3 f_equal. lia.
      * intros d Hd Hb. replace (S m + d)%nat with (m + S d)%nat in * by lia.
        rewrite Hsrc by (done || lia).
        rewrite set_bits_S, Hm. do 2 f_equal. lia.
    + rewrite IH; [done|].
      intros d Hd Hb. replace (S m + d)%nat with (m + S d)%nat in * by lia.
      rewrite Hsrc by (done || lia).
      by rewrite set_bits_S, Hm.
Qed.

Lemma pext_pdep_width (width : nat) (v m : Z) :
  pext width (pdep width (Z.land v (popcount_mask width m)) m) m
  = Z.land v (popcount_mask width m).
Proof.
  unfold pext, popcount_mask, popcount.
  set (x := Z.land v _).
  replace (pext_loop width 0 0 (pdep width x m) m 0)
    with (pext_loop width 0 0 (pdep width x m) m (Z.land x (Z.ones (Z.of_nat 0))))
    by (by rewrite Z.land_0_r).
  rewrite (pext_loop_gathers x).
  - rewrite Nat.add_0_l. subst x. by rewrite <- Z.land_assoc, Z.land_diag.
  - intros d Hd Hb. unfold pdep.
    rewrite pdep_loop_bits; [by rewrite Hb| |done].
    intros j _. apply Z.bits_0.
Qed.

(** C8.  Round trip at 64 bits: for every value [v] and mask [m],
    gathering through [m] what was scattered through [m] from the low
    popcount(m) bits of [v] gives those low bits back.  Only bits 0..63 of
    [m] and of [v] are read, so the statement needs no range hypothesis. *)
Theorem pext_pdep_round_trip (v m : Z) :
  pext 64 (pdep 64 (Z.land v (popcount_mask 64 m)) m) m
  = Z.land v (popcount_mask 64 m).
Proof. apply pext_pdep_width. Qed.

(** Mask 11010 (binary) selects positions 1, 3 and 4. *)
Example pdep_scatters : pdep 64 5 26 = 18.
Proof. reflexivity. Qed.

Example pext_gathers : pext 64 18 26 = 5.
Proof. reflexivity. Qed.

End BitGatherFacts.

(** *** Hook installation and removal *)

Module HookFacts.
Import TrapHook.
Local Open Scope Z_scope.

Lemma nonzero_false (z : Z) : nonzero z = false <-> z = 0.
Proof. unfold nonzero. rewrite negb_false_iff. apply Z.eqb_eq. Qed.

Lemma nonzero_true (z : Z) : nonzero z = true <-> z <> 0.
Proof. unfold nonzero. rewrite negb_true_iff. apply Z.eqb_neq. Qed.

Lemma registered_app l1 l2 : registered (l1 ++ l2) = registered l1 ++ registered l2.
Proof. apply omap_app. Qed.
Lemma unregistered_app l1 l2 :
  unregistered (l1 ++ l2) = unregistered l1 ++ unregistered l2.
Proof. apply omap_app. Qed.
Lemma unfiltered_app l1 l2 : unfiltered (l1 ++ l2) = unfiltered l1 ++ unfiltered l2.
Proof. apply omap_app. Qed.

Lemma removal_calls_projections p ip r1 r2 :
  registered (removal_calls p ip r1 r2) = []
  /\ unregistered (removal_calls p ip r1 r2) = [p]
  /\ unfiltered (removal_calls p ip r1 r2) = [p].
Proof.
  unfold removal_calls, debug_on_failure.
  by destruct (nonzero r1), (nonzero r2).
Qed.

Section Rules.
Context `{!linux}.

Lemma runs_ret {A} (a : A) k : runs (ret a) k a k [].
Proof. repeat split. by rewrite app_nil_r. Qed.

Lemma runs_bind {A B} (c : M A) (f : A -> M B) k a k1 l1 b k2 l2 :
  runs c k a k1 l1 -> runs (f a) k1 b k2 l2 -> runs (bind c f) k b k2 (l1 ++ l2).
Proof.
  intros (Hc & Hl1 & Hn1) (Hf & Hl2 & Hn2). repeat split.
  - unfold bind. by rewrite Hc.
  - by rewrite Hl2, Hl1, app_assoc.
  - congruence.
Qed.

(** Rules for running a computation step by step.  The state after a step
    is known through the hooks and variables the step leaves. *)
Lemma wp_ret {A} (a : A) k Q : Q a k [] -> wp (ret a) k Q.
Proof. intros HQ. exists a, k, []. split; [apply runs_ret|done]. Qed.

Lemma wp_bind {A B} (c : M A) (f : A -> M B) k Q :
  wp c k (fun a k1 l1 => wp (f a) k1 (fun b k2 l2 => Q b k2 (l1 ++ l2))) ->
  wp (bind c f) k Q.
Proof.
  intros (a & k1 & l1 & Hc & b & k2 & l2 & Hf & HQ).
  exists b, k2, (l1 ++ l2). split; [by eapply runs_bind|done].
Qed.

Lemma wp_mono {A} (c : M A) k (Q Q' : A -> kstate -> list (call * Z) -> Prop) :
  wp c k Q -> (forall a k' l, Q a k' l -> Q' a k' l) -> wp c k Q'.
Proof. intros (a & k' & l & Hc & HQ) Himp. exists a, k', l. auto. Qed.

Lemma wp_length {A} (c : M A) k Q :
  wp c k Q ->
  wp c k (fun a k' l =>
    Q a k' l /\ length (hook_cells k') = length (hook_cells k)).
Proof.
  intros (a & k' & l & Hc & HQ). exists a, k', l.
  split; [done|]. split; [done|]. apply Hc.
Qed.

Lemma after_plain_call k c r : ops_arg c = None -> after_call k c r = logged k c r.
Proof. intros Hc. unfold after_call, written. by rewrite Hc. Qed.

Lemma wp_invoke_plain c k cells vs Q :
  ops_arg c = None -> hook_cells k = cells -> vars k = vs ->
  (forall r k', r = call_result k c -> k' = logged k c r ->
     hook_cells k' = cells -> vars k' = vs -> Q r k' [(c, r)]) ->
  wp (invoke c) k Q.
Proof.
  intros Hc Hcells Hvs HQ.
  exists (call_result k c), (logged k c (call_result k c)), [(c, call_result k c)].
  split; [|by apply HQ].
  unfold runs, invoke. by rewrite after_plain_call.
Qed.

Lemma wp_invoke_ops c p k cells0 h vs Q :
  ops_arg c = Some p ->
  hook_cells k = <[p := h]> cells0 -> (p < length cells0)%nat -> vars k = vs ->
  (forall r o k', r = call_result k c -> (ops_untouched -> o = ops h) ->
     hook_cells k' = <[p := set_ops h o]> cells0 -> vars k' = vs ->
     Q r k' [(c, r)]) ->
  wp (invoke c) k Q.
Proof.
  intros Hc Hcells Hp Hvs HQ.
  exists (call_result k c), (after_call k c (call_result k c)),
    [(c, call_result k c)].
  split.
  - unfold runs, invoke, after_call, written. rewrite Hc. cbn.
    by rewrite length_alter.
  - apply (HQ _ (ops_written k c (ops h))); [done|by intros ->| |done].
    unfold after_call, written. rewrite Hc, Hcells. cbn.
    apply list_eq. intros q. destruct (decide (q = p)) as [->|Hq].
    + rewrite list_lookup_alter_eq, !list_lookup_insert_eq by done. done.
    + by rewrite list_lookup_alter_ne, !list_lookup_insert_ne by done.
Qed.

Lemma wp_invoke_void c k cells vs Q :
  hook_cells k = cells -> vars k = vs ->
  (forall k', k' = logged k c 0 -> hook_cells k' = cells -> vars k' = vs ->
     Q () k' [(c, 0)]) ->
  wp (invoke_void c) k Q.
Proof.
  intros Hcells Hvs HQ. exists (), (logged k c 0), [(c, 0)].
  split; [by repeat split|by apply HQ].
Qed.

Lemma wp_kp_addr s k Q :
  (forall a, a = kprobe_addr k s -> Q a k []) -> wp (kp_addr s) k Q.
Proof.
  intros HQ. exists (kprobe_addr k s), k, []. split; [|by apply HQ].
  repeat split. by rewrite app_nil_r.
Qed.

Lemma wp_load_hook p k cells0 h Q :
  hook_cells k = <[p := h]> cells0 -> (p < length cells0)%nat ->
  Q h k [] -> wp (load_hook p) k Q.
Proof.
  intros Hcells Hp HQ. exists h, k, []. split; [|done].
  unfold runs, load_hook. rewrite app_nil_r.
  assert (Hh : hook_cells k !! p = Some h)
    by (by rewrite Hcells, list_lookup_insert_eq).
  by rewrite Hh.
Qed.

Lemma wp_store_hook p h' k cells0 h vs Q :
  hook_cells k = <[p := h]> cells0 -> (p < length cells0)%nat -> vars k = vs ->
  (forall k', hook_cells k' = <[p := h']> cells0 -> vars k' = vs -> Q () k' []) ->
  wp (store_hook p h') k Q.
Proof.
  intros Hcells Hp Hvs HQ.
  eexists (), _, []. split.
  - unfold runs, store_hook. rewrite Hcells, list_lookup_insert_eq by done.
    split; [reflexivity|]. cbn. by rewrite app_nil_r, !length_insert.
  - apply HQ; cbn; [|done]. by rewrite ?Hcells, list_insert_insert_eq.
Qed.

Lemma wp_store_var x v k cells vs Q :
  hook_cells k = cells -> vars k = vs ->
  (forall k', hook_cells k' = cells -> vars k' = <[x := v]> vs -> Q () k' []) ->
  wp (store_var x v) k Q.
Proof.
  intros Hcells Hvs HQ. eexists (), _, []. split.
  - unfold runs, store_var. split; [reflexivity|]. cbn. by rewrite app_nil_r.
  - apply HQ; cbn; congruence.
Qed.

End Rules.

(** One step of a computation on the hook at a fixed index; the context
    holds, for the current state, an equation for its hooks and one for
    its variables. *)
Ltac wp_step :=
  lazymatch goal with
  | |- wp (bind _ _) _ _ => apply wp_bind
  | |- wp (ret _) _ _ => apply wp_ret
  | |- wp (invoke ?c) ?k _ =>
      first
        [ eapply (wp_invoke_plain c k);
          [reflexivity|eassumption|eassumption|intros ? ? ? ? ? ?]
        | eapply (wp_invoke_ops c _ k);
          [reflexivity|eassumption|eassumption|eassumption|intros ? ? ? ? ? ? ?] ]
  | |- wp (invoke_void ?c) ?k _ =>
      eapply (wp_invoke_void c k); [eassumption|eassumption|intros ? ? ? ?]
  | |- wp (kp_addr _) _ _ => apply wp_kp_addr; intros ? ?
  | |- wp (store_var _ _) ?k _ =>
      eapply (wp_store_var _ _ k); [eassumption|eassumption|intros ? ? ?]
  | |- wp (load_hook _) ?k _ =>
      eapply (wp_load_hook _ k); [eassumption|eassumption|]
  | |- wp (store_hook _ _) ?k _ =>
      eapply (wp_store_hook _ _ k); [eassumption|eassumption|eassumption|intros ? ? ?]
  | |- wp (if ?b then _ else _) _ _ => destruct b eqn:?
  end.

Section Install.
Context `{!linux}.

Lemma install_unresolved_intro p h vs r reported h' l :
  h' = set_address h 0 ->
  l = kprobe_calls r
      ++ [(pr_debug "unresolved symbol: %s\n" (arg_s (name h)), 0)] ->
  0 <= r -> reported = 0 ->
  install_result p h vs r reported (- ENOENT) h' vs l.
Proof. intros -> -> Hr Hrep. by constructor. Qed.

Lemma install_filter_failed_intro p h vs r reported a vs' o e h' l :
  h' = set_ops (set_address h a) o ->
  l = kprobe_calls r
      ++ [(ftrace_set_filter_ip p a 0 0, e);
          (pr_debug "ftrace_set_filter_ip() failed: %d\n" (arg_d e), 0)] ->
  resolved h vs r reported a vs' -> e <> 0 ->
  (ops_untouched -> o = initial_ops) ->
  install_result p h vs r reported e h' vs' l.
Proof. intros -> -> Hres He Ho. by constructor. Qed.

Lemma install_register_failed_intro p h vs r reported a vs' o e r3 h' l :
  h' = set_ops (set_address h a) o ->
  l = kprobe_calls r
      ++ [(ftrace_set_filter_ip p a 0 0, 0);
          (register_ftrace_function p, e);
          (pr_debug "register_ftrace_function() failed: %d\n" (arg_d e), 0);
          (ftrace_set_filter_ip p a 1 0, r3)] ->
  resolved h vs r reported a vs' -> e <> 0 ->
  (ops_untouched -> o = initial_ops) ->
  install_result p h vs r reported e h' vs' l.
Proof. intros -> -> Hres He Ho. by constructor. Qed.

Lemma install_done_intro p h vs r reported a vs' o h' l :
  h' = set_ops (set_address h a) o ->
  l = kprobe_calls r
      ++ [(ftrace_set_filter_ip p a 0 0, 0); (register_ftrace_function p, 0)] ->
  resolved h vs r reported a vs' ->
  (ops_untouched -> o = initial_ops) ->
  install_result p h vs r reported 0 h' vs' l.
Proof. intros -> -> Hres Ho. by constructor. Qed.

(** Closing a branch of [fh_install_hook]: name the kprobe result and the
    reported address, turn the tests into facts, and pick the outcome. *)
Ltac name_kprobe :=
  unfold kprobe_reported, kprobe_result;
  repeat match goal with
         | Hr : ?r = call_result _ (register_kprobe _) |- _ =>
             rewrite <- Hr; clear Hr
         | Hk : ?k' = logged _ (register_kprobe _) _ |- _ =>
             rewrite <- Hk; clear Hk
         | Ha : ?a = kprobe_addr _ _ |- _ => rewrite <- Ha; clear Ha
         end;
  repeat match goal with
         | Hr : _ = call_result _ _ |- _ => clear Hr
         | Hk : _ = logged _ _ _ |- _ => clear Hk
         end.

Ltac test_facts :=
  repeat match goal with
         | Hz : nonzero _ = false |- _ => apply nonzero_false in Hz
         | Hz : nonzero _ = true |- _ => apply nonzero_true in Hz
         | Hz : (_ <? _) = true |- _ => apply Z.ltb_lt in Hz
         | Hz : (_ <? _) = false |- _ => apply Z.ltb_ge in Hz
         | Hz : (_ =? _) = true |- _ => apply Z.eqb_eq in Hz
         | Hz : (_ =? _) = false |- _ => apply Z.eqb_neq in Hz
         end;
  cbn [set_ops set_address name function original address ops func flags] in *;
  subst.

Ltac list_shape :=
  unfold kprobe_calls;
  match goal with
  | Hr : ?r < 0 |- _ => rewrite (proj2 (Z.ltb_lt r 0) Hr)
  | Hr : 0 <= ?r |- _ => rewrite (proj2 (Z.ltb_ge r 0) Hr)
  end;
  cbn [app]; reflexivity.

Ltac ops_shape :=
  let Hu := fresh "Hu" in
  intros Hu;
  repeat match goal with
         | Ho : ops_untouched -> _ |- _ => specialize (Ho Hu)
         end;
  subst; reflexivity.

Ltac resolved_shape :=
  first [ left; split_and!; [assumption|reflexivity|reflexivity]
        | right; split_and!; [assumption|reflexivity|assumption|reflexivity] ].

Lemma fh_install_hook_result p k h :
  hook_cells k !! p = Some h ->
  wp (fh_install_hook p) k (fun err k' l =>
    exists h',
      hook_cells k' = <[p := h']> (hook_cells k)
      /\ install_result p h (vars k) (kprobe_result k) (kprobe_reported k)
           err h' (vars k') l).
Proof.
  intros Hp.
  assert (Hlt : (p < length (hook_cells k))%nat) by (by eapply lookup_lt_Some).
  assert (Hcells : hook_cells k = <[p := h]> (hook_cells k))
    by (by rewrite list_insert_id).
  assert (Hvs : vars k = vars k) by reflexivity.
  unfold fh_install_hook, fh_resolve_hook_address.
  repeat wp_step.
  all: try discriminate.
  all: eexists; (split; [eassumption|]);
    match goal with
    | Hv : vars ?kf = _ |- install_result _ _ _ _ _ _ _ (vars ?kf) _ => rewrite Hv
    end;
    name_kprobe; test_facts.
  all: first
    [ eapply install_unresolved_intro;
        [reflexivity|list_shape|assumption|reflexivity]
    | eapply install_done_intro;
        [reflexivity|list_shape|resolved_shape|ops_shape]
    | eapply install_filter_failed_intro;
        [reflexivity|list_shape|resolved_shape|assumption|ops_shape]
    | eapply install_register_failed_intro;
        [reflexivity|list_shape|resolved_shape|assumption|ops_shape]
    ].
Qed.

Lemma wp_runs {A} (c : M A) k Q :
  wp c k Q ->
  wp c k (fun a k' l =>
    Q a k' l /\ klog k' = klog k ++ l
    /\ length (hook_cells k') = length (hook_cells k)).
Proof.
  intros (a & k' & l & Hc & HQ). exists a, k', l.
  split; [done|]. split; [done|]. split; apply Hc.
Qed.

Lemma fh_remove_hook_result p k h :
  hook_cells k !! p = Some h ->
  wp (fh_remove_hook p) k (fun _ k' l =>
    exists r1 r2 o,
      l = removal_calls p (address h) r1 r2
      /\ hook_cells k' = <[p := set_ops h o]> (hook_cells k)
      /\ vars k' = vars k
      /\ (ops_untouched -> o = ops h)).
Proof.
  intros Hp.
  assert (Hlt : (p < length (hook_cells k))%nat) by (by eapply lookup_lt_Some).
  assert (Hcells : hook_cells k = <[p := h]> (hook_cells k))
    by (by rewrite list_insert_id).
  assert (Hvs : vars k = vars k) by reflexivity.
  unfold fh_remove_hook.
  repeat wp_step.
  all: match goal with
       | |- context [(unregister_ftrace_function _, ?r1)] =>
           match goal with
           | |- context [(ftrace_set_filter_ip _ _ _ _, ?r2)] => exists r1, r2
           end
       end; eexists.
  all: split_and!; [|eassumption|assumption|ops_shape].
  all: unfold removal_calls, debug_on_failure;
    repeat match goal with
           | Hz : nonzero _ = _ |- _ => rewrite Hz; clear Hz
           end; reflexivity.
Qed.

(** **** What the calls of an installation leave behind *)

Lemma held_from_app acc l1 l2 :
  held_from acc (l1 ++ l2) = held_from (held_from acc l1) l2.
Proof. apply fold_left_app. Qed.

Lemma held_from_kprobe_calls acc r : held_from acc (kprobe_calls r) = acc.
Proof. unfold kprobe_calls. by destruct (r <? 0). Qed.

Lemma removals_succeeded_app l1 l2 :
  removals_succeeded (l1 ++ l2) <-> removals_succeeded l1 /\ removals_succeeded l2.
Proof. apply Forall_app. Qed.

Lemma give_back_fresh (x : resource) acc :
  Forall (fun y => y <> x) acc ->
  List.filter (fun y => negb (bool_decide (y = x))) acc = acc.
Proof.
  induction 1 as [|y acc Hy _ IH]; [done|]. cbn.
  rewrite bool_decide_eq_false_2 by done. cbn. by rewrite IH.
Qed.

Lemma give_back_last (x : resource) acc :
  Forall (fun y => y <> x) acc ->
  List.filter (fun y => negb (bool_decide (y = x))) (acc ++ [x]) = acc.
Proof.
  intros Hacc. rewrite List.filter_app, give_back_fresh by done. cbn.
  rewrite bool_decide_eq_true_2 by done. cbn. apply app_nil_r.
Qed.

Lemma below_fresh (x : resource) acc :
  Forall (fun y => (hook_of y < hook_of x)%nat) acc -> Forall (fun y => y <> x) acc.
Proof. intros Hacc. eapply Forall_impl; [exact Hacc|]. intros y Hy ->. lia. Qed.

Lemma installed_resources_S cells hooks n :
  installed_resources cells hooks (S n)
  = installed_resources cells hooks n
    ++ [Filter (hooks + n) (addr_at cells (hooks + n)); Registration (hooks + n)].
Proof.
  unfold installed_resources. by rewrite seq_S, flat_map_app.
Qed.

Lemma installed_resources_cons cells hooks n :
  installed_resources cells hooks (S n)
  = [Filter hooks (addr_at cells hooks); Registration hooks]
    ++ installed_resources cells (S hooks) n.
Proof. reflexivity. Qed.

Lemma installed_resources_below cells hooks n :
  Forall (fun y => (hook_of y < hooks + n)%nat) (installed_resources cells hooks n).
Proof.
  induction n as [|n IH]; [constructor|].
  rewrite installed_resources_S. apply Forall_app. split.
  - eapply Forall_impl; [exact IH|]. cbn. intros; lia.
  - repeat constructor; cbn; lia.
Qed.

Lemma installed_resources_ext cells1 cells2 hooks n :
  (forall q, (hooks <= q < hooks + n)%nat -> addr_at cells1 q = addr_at cells2 q) ->
  installed_resources cells1 hooks n = installed_resources cells2 hooks n.
Proof.
  induction n as [|n IH]; intros Hq; [done|].
  rewrite !installed_resources_S, IH, Hq; [done|lia|].
  intros q Hlt. apply Hq. lia.
Qed.

Lemma addr_at_insert cells p h :
  (p < length cells)%nat -> addr_at (<[p := h]> cells) p = address h.
Proof. intros Hp. unfold addr_at. by rewrite list_lookup_insert_eq. Qed.

Lemma addr_at_insert_ne cells p q h :
  p <> q -> addr_at (<[p := h]> cells) q = addr_at cells q.
Proof. intros Hp. unfold addr_at. by rewrite list_lookup_insert_ne. Qed.

Lemma addr_at_lookup cells p h : cells !! p = Some h -> addr_at cells p = address h.
Proof. intros Hp. unfold addr_at. by rewrite Hp. Qed.

Lemma addr_at_set_ops cells p h o q :
  cells !! p = Some h -> addr_at (<[p := set_ops h o]> cells) q = addr_at cells q.
Proof.
  intros Hp. destruct (decide (p = q)) as [<-|Hne].
  - rewrite addr_at_insert by (by eapply lookup_lt_Some).
    by rewrite (addr_at_lookup _ _ _ Hp).
  - by apply addr_at_insert_ne.
Qed.

(** One installation, read from its outcome. *)
Lemma install_result_projections p h vs r reported err h' vs' l :
  install_result p h vs r reported err h' vs' l ->
  unregistered l = []
  /\ registered l = (if nonzero err then [] else [p])
  /\ (err = 0 -> unfiltered l = []).
Proof.
  destruct 1; unfold kprobe_calls; destruct (r <? 0);
    unfold registered, unregistered, unfiltered; cbn [app omap list_omap];
    repeat match goal with
           | He : ?e <> 0 |- _ => apply nonzero_true in He; rewrite ?He
           end;
    split_and!; try reflexivity; try (intros; congruence).
  all: intros He0; subst; discriminate.
Qed.

Lemma install_result_kept p h vs r reported err h' vs' l :
  install_result p h vs r reported err h' vs' l ->
  name h' = name h /\ function h' = function h /\ original h' = original h.
Proof. by destruct 1. Qed.

Lemma install_result_held_done acc p h vs r reported h' vs' l :
  install_result p h vs r reported 0 h' vs' l ->
  held_from acc l = acc ++ [Filter p (address h'); Registration p].
Proof.
  inversion 1; subst; try congruence.
  rewrite held_from_app, held_from_kprobe_calls. cbn.
  unfold hold. cbn. by rewrite <- app_assoc.
Qed.


Lemma removal_calls_held acc p ip r1 r2 :
  removals_succeeded (removal_calls p ip r1 r2) ->
  Forall (fun y => (hook_of y < p)%nat) acc ->
  held_from (acc ++ [Filter p ip; Registration p]) (removal_calls p ip r1 r2) = acc.
Proof.
  intros Hsucc Hacc. unfold removal_calls in *.
  apply removals_succeeded_app in Hsucc as [Hr1 Hsucc].
  apply removals_succeeded_app in Hsucc as [_ Hsucc].
  apply removals_succeeded_app in Hsucc as [Hr2 _].
  unfold removals_succeeded in Hr1, Hr2. rewrite Forall_singleton in Hr1, Hr2.
  cbn in Hr1, Hr2. rewrite (Hr1 eq_refl), (Hr2 eq_refl).
  cbn. unfold hold. cbn.
  replace (acc ++ [Filter p ip; Registration p])
    with ((acc ++ [Filter p ip]) ++ [Registration p]) by (by rewrite <- app_assoc).
  rewrite give_back_last.
  - apply give_back_last, (below_fresh (Filter p ip)). exact Hacc.
  - apply Forall_app. split.
    + apply (below_fresh (Registration p)). exact Hacc.
    + by repeat constructor.
Qed.

(** A run of successful installations, read from [installed_run]. *)
Lemma installed_run_facts p n k k' l :
  installed_run p n k k' l ->
  klog k' = klog k ++ l
  /\ length (hook_cells k') = length (hook_cells k)
  /\ (forall q, (q < p \/ p + n <= q)%nat -> hook_cells k' !! q = hook_cells k !! q)
  /\ registered l = seq p n
  /\ unregistered l = []
  /\ unfiltered l = []
  /\ (forall acc, held_from acc l = acc ++ installed_resources (hook_cells k') p n).
Proof.
  induction 1 as [p k|p n k k1 k2 h h' l1 l2 Hh Hres Hcells Hlog Hrun IH].
  - split_and!; try done; [by rewrite app_nil_r|].
    intros acc. cbn. by rewrite app_nil_r.
  - destruct IH as (Hlog2 & Hlen2 & Hframe2 & Hreg2 & Hun2 & Hfil2 & Hheld2).
    destruct (install_result_projections _ _ _ _ _ _ _ _ _ Hres)
      as (Hun1 & Hreg1 & Hfil1).
    assert (Hp : (p < length (hook_cells k))%nat) by (by eapply lookup_lt_Some).
    split_and!.
    + by rewrite Hlog2, Hlog, app_assoc.
    + by rewrite Hlen2, Hcells, length_insert.
    + intros q Hq. rewrite Hframe2 by lia.
      rewrite Hcells. apply list_lookup_insert_ne. lia.
    + rewrite registered_app, Hreg1, Hreg2. reflexivity.
    + by rewrite unregistered_app, Hun1, Hun2.
    + by rewrite unfiltered_app, (Hfil1 eq_refl), Hfil2.
    + intros acc.
      rewrite held_from_app, (install_result_held_done _ _ _ _ _ _ _ _ _ Hres).
      rewrite Hheld2, installed_resources_cons, <- app_assoc.
      rewrite (addr_at_lookup _ _ h'); [reflexivity|].
      rewrite Hframe2 by lia. rewrite Hcells. by apply list_lookup_insert_eq.
Qed.

(** The installation loop stops with 0 after a full run, or with the
    error of the first installation that fails, after a run of the hooks
    before it. *)
Lemma install_loop_result hooks n : forall i k,
  (hooks + i + n <= length (hook_cells k))%nat ->
  wp (install_loop hooks n i) k (fun r k' l =>
    (r.1 = 0 /\ r.2 = (i + n)%nat /\ installed_run (hooks + i) n k k' l)
    \/ (r.1 <> 0 /\ (i <= r.2 < i + n)%nat
        /\ exists km la lb h h',
             l = la ++ lb
             /\ installed_run (hooks + i) (r.2 - i) k km la
             /\ hook_cells km !! (hooks + r.2)%nat = Some h
             /\ install_result (hooks + r.2) h (vars km) (kprobe_result km)
                  (kprobe_reported km) r.1 h' (vars k') lb
             /\ hook_cells k' = <[(hooks + r.2)%nat := h']> (hook_cells km))).
Proof.
  induction n as [|n IH]; intros i k Hlen; cbn [install_loop].
  - apply wp_ret. left. cbn. rewrite Nat.add_0_r. split_and!; try done. constructor.
  - destruct (lookup_lt_is_Some_2 (hook_cells k) (hooks + i)) as [h Hh]; [lia|].
    apply wp_bind.
    eapply wp_mono; [apply wp_runs, (fh_install_hook_result _ _ _ Hh)|].
    intros err k1 l1 ((h' & Hcells & Hres) & Hlog & Hlen1). cbn beta.
    destruct (nonzero err) eqn:Herr.
    + apply wp_ret. right. cbn [fst snd]. apply nonzero_true in Herr.
      split; [done|]. split; [lia|].
      exists k, [], l1, h, h'. rewrite Nat.sub_diag, app_nil_r.
      split_and!; try done. constructor.
    + apply nonzero_false in Herr. subst err.
      eapply wp_mono; [apply (IH (S i) k1); lia|].
      intros [err2 j] k2 l2 Hcase. cbn [fst snd] in *.
      destruct Hcase as [(-> & -> & Hrun)
                        |(Herr2 & Hj & km & la & lb & h2 & h2' & -> & Hrun & Hrest)].
      * left. split; [done|]. split; [lia|].
        eapply run_step; eauto. by rewrite <- Nat.add_succ_r.
      * right. split; [done|]. split; [lia|].
        exists km, (l1 ++ la), lb, h2, h2'. split_and!; try apply Hrest.
        -- by rewrite app_assoc.
        -- replace (j - i)%nat with (S (j - S i)) by lia.
           eapply run_step; eauto. by rewrite <- Nat.add_succ_r.
Qed.

(** The rollback loop removes the hooks below [i], last first, and touches
    nothing but their [ops]. *)
Lemma rollback_loop_result hooks i : forall k,
  (hooks + i <= length (hook_cells k))%nat ->
  wp (rollback_loop hooks i) k (fun _ k' l =>
    registered l = []
    /\ unregistered l = reverse (seq hooks i)
    /\ unfiltered l = reverse (seq hooks i)
    /\ vars k' = vars k
    /\ (forall q, addr_at (hook_cells k') q = addr_at (hook_cells k) q)
    /\ (ops_untouched -> hook_cells k' = hook_cells k)
    /\ (removals_succeeded l ->
        forall acc, Forall (fun y => (hook_of y < hooks)%nat) acc ->
          held_from (acc ++ installed_resources (hook_cells k) hooks i) l = acc)).
Proof.
  induction i as [|i IH]; intros k Hlen; cbn [rollback_loop].
  - apply wp_ret. split_and!; try done. intros _ acc _. cbn. apply app_nil_r.
  - destruct (lookup_lt_is_Some_2 (hook_cells k) (hooks + i)) as [h Hh]; [lia|].
    apply wp_bind.
    eapply wp_mono; [apply (fh_remove_hook_result _ _ _ Hh)|].
    intros _ k1 l1 (r1 & r2 & o & -> & Hc1 & Hv1 & Ho1). cbn beta.
    eapply wp_mono; [apply (IH k1); rewrite Hc1, length_insert; lia|].
    intros _ k2 l2 (Hreg & Hun & Hfil & Hv2 & Haddr & Hc2 & Hheld).
    destruct (removal_calls_projections (hooks + i) (address h) r1 r2)
      as (Hr & Hu & Hf).
    rewrite registered_app, unregistered_app, unfiltered_app.
    rewrite Hr, Hu, Hf, Hreg, Hun, Hfil, seq_S, reverse_snoc.
    assert (Hsame : forall q, addr_at (hook_cells k1) q = addr_at (hook_cells k) q).
    { intros q. rewrite Hc1. by apply addr_at_set_ops. }
    split_and!; try done.
    + congruence.
    + intros q. by rewrite Haddr, Hsame.
    + intros Hu0. rewrite (Hc2 Hu0), Hc1, (Ho1 Hu0).
      destruct h; cbn. by apply list_insert_id.
    + intros Hsucc acc Hacc.
      apply removals_succeeded_app in Hsucc as [Hs1 Hs2].
      rewrite held_from_app, installed_resources_S, app_assoc.
      rewrite (addr_at_lookup _ _ _ Hh), removal_calls_held; [|done|].
      * rewrite <- (installed_resources_ext (hook_cells k1)) by (intros; apply Hsame).
        by apply Hheld.
      * apply Forall_app. split.
        -- eapply Forall_impl; [exact Hacc|]. cbn. intros; lia.
        -- apply installed_resources_below.
Qed.

(** The removal loop visits every hook in order. *)
Lemma remove_loop_result hooks n : forall i k,
  (hooks + i + n <= length (hook_cells k))%nat ->
  wp (remove_loop hooks n i) k (fun _ k' l =>
    registered l = []
    /\ unregistered l = seq (hooks + i) n
    /\ unfiltered l = seq (hooks + i) n
    /\ vars k' = vars k
    /\ (forall q, addr_at (hook_cells k') q = addr_at (hook_cells k) q)
    /\ (forall q, (q < hooks + i \/ hooks + i + n <= q)%nat ->
          hook_cells k' !! q = hook_cells k !! q)
    /\ (ops_untouched -> hook_cells k' = hook_cells k)).
Proof.
  induction n as [|n IH]; intros i k Hlen; cbn [remove_loop].
  - apply wp_ret. done.
  - destruct (lookup_lt_is_Some_2 (hook_cells k) (hooks + i)) as [h Hh]; [lia|].
    apply wp_bind.
    eapply wp_mono; [apply (fh_remove_hook_result _ _ _ Hh)|].
    intros _ k1 l1 (r1 & r2 & o & -> & Hc1 & Hv1 & Ho1). cbn beta.
    eapply wp_mono; [apply (IH (S i) k1); rewrite Hc1, length_insert; lia|].
    intros _ k2 l2 (Hreg & Hun & Hfil & Hv2 & Haddr & Hframe & Hc2).
    destruct (removal_calls_projections (hooks + i) (address h) r1 r2)
      as (Hr & Hu & Hf).
    rewrite registered_app, unregistered_app, unfiltered_app.
    rewrite Hr, Hu, Hf, Hreg, Hun, Hfil. cbn [seq app].
    rewrite Nat.add_succ_r.
    split_and!; try done.
    + congruence.
    + intros q. rewrite Haddr, Hc1. by apply addr_at_set_ops.
    + intros q Hq. rewrite Hframe by lia. rewrite Hc1.
      apply list_lookup_insert_ne. lia.
    + intros Hu0. rewrite (Hc2 Hu0), Hc1, (Ho1 Hu0).
      destruct h; cbn. by apply list_insert_id.
Qed.


(** C7.  Removal cannot fail and is never cut short.  One removal makes
    both kernel calls whatever they return and adds at most a [pr_debug]
    line per failure; of the hook it can change only the [ops] handed to
    the kernel.  [fh_remove_hooks] visits every hook of the array in
    order; [fh_exit] ends with the line [module unloaded].  The kernel
    is arbitrary throughout, so this holds when every call fails. *)
Theorem removal_never_propagates_errors :
  (forall p k h, hook_cells k !! p = Some h ->
     exists k' r1 r2,
       fh_remove_hook p k = Some ((), k')
       /\ klog k' = klog k ++ removal_calls p (address h) r1 r2
       /\ (exists o, hook_cells k' = <[p := set_ops h o]> (hook_cells k))
       /\ (ops_untouched -> hook_cells k' = hook_cells k))
  /\ (forall hooks count k, (hooks + count <= length (hook_cells k))%nat ->
       exists k' l,
         fh_remove_hooks hooks count k = Some ((), k')
         /\ klog k' = klog k ++ l
         /\ unregistered l = seq hooks count
         /\ unfiltered l = seq hooks count)
  /\ (forall k, (demo_hooks + ARRAY_SIZE_demo_hooks <= length (hook_cells k))%nat ->
       exists k' l,
         fh_exit k = Some ((), k')
         /\ klog k' = klog k ++ l ++ [(pr_info "module unloaded\n", 0)]
         /\ unregistered l = seq demo_hooks ARRAY_SIZE_demo_hooks).
Proof.
  split; [|split].
  - intros p k h Hp.
    destruct (fh_remove_hook_result p k h Hp)
      as ([] & k' & l & (Hr & Hl & _) & r1 & r2 & o & -> & Hc & _ & Ho).
    exists k', r1, r2. split_and!; [done|done|by exists o|].
    intros Hu. rewrite Hc, (Ho Hu). destruct h; cbn. by apply list_insert_id.
  - intros hooks count k Hlen.
    destruct (remove_loop_result hooks count 0 k ltac:(lia))
      as ([] & k' & l & (Hr & Hl & _) & _ & Hun & Hfil & _).
    rewrite Nat.add_0_r in Hun, Hfil. by exists k', l.
  - intros k Hlen.
    destruct (remove_loop_result demo_hooks ARRAY_SIZE_demo_hooks 0 k ltac:(lia))
      as ([] & k' & l & (Hr & Hl & _) & _ & Hun & _).
    rewrite Nat.add_0_r in Hun.
    exists (logged k' (pr_info "module unloaded\n") 0), l.
    unfold fh_exit, bind, fh_remove_hooks. rewrite Hr.
    split; [done|]. split; [|done]. cbn. by rewrite Hl, app_assoc.
Qed.

End Install.

(** **** Runs against the sample kernels *)

(** C5.  When [register_kprobe] fails, [fh_resolve_hook_address] returns 0
    without an address: [fh_install_hook] goes on to filter and register
    the hook at the unresolved address 0 and returns 0, and [fh_init]
    reports the module as loaded with one hook registered and
    [orig_do_error_trap] never written. *)
Theorem kprobe_failure_reported_as_success :
  let k1 :=
    {| hook_cells :=
         [{| name := "__x64_do_error_trap"; function := "fh_do_error_trap";
             original := "orig_do_error_trap"; address := 0;
             ops := {| func := fh_ftrace_thunk; flags := 146 |} |}];
       vars := ∅;
       klog := [(register_kprobe "kallsyms_lookup_name", -22);
                (ftrace_set_filter_ip 0 0 0 0, 0);
                (register_ftrace_function 0, 0)] |} in
  @fh_resolve_hook_address kprobes_refused demo_hooks (@module_image kprobes_refused)
  = Some (0, logged (@module_image kprobes_refused)
                    (register_kprobe "kallsyms_lookup_name") (-22))
  /\ @fh_install_hook kprobes_refused demo_hooks (@module_image kprobes_refused)
     = Some (0, k1)
  /\ @fh_init kprobes_refused (@module_image kprobes_refused)
     = Some (0, logged k1 (pr_info "module loaded\n") 0).
Proof. split_and!; reflexivity. Qed.



(** With every ftrace call failing, the single hook is not installed and
    the error of [ftrace_set_filter_ip] is what [fh_init] returns. *)
Example fh_init_ftrace_busy :
  fst <$> @fh_init ftrace_busy (@module_image ftrace_busy) = Some (-16).
Proof. reflexivity. Qed.

(** A kernel that marks the [ops] it registers: the hook ends with the
    enabled bit beside the three flags the module set. *)
Example fh_install_hook_ftrace_enabling :
  (fun r => ops <$> hook_cells r.2) <$> @fh_install_hook ftrace_enabling 0 two_hooks
  = Some [{| func := fh_ftrace_thunk; flags := 147 |};
          {| func := no_func; flags := 0 |}].
Proof. reflexivity. Qed.

Lemma removal_never_propagates_errors_witness :
  (demo_hooks + @ARRAY_SIZE_demo_hooks ftrace_busy
   <= length (hook_cells (@module_image ftrace_busy)))%nat
  /\ exists k' l,
       @fh_exit ftrace_busy (@module_image ftrace_busy) = Some ((), k')
       /\ klog k' = l ++ [(pr_info "module unloaded\n", 0)]
       /\ unregistered l = [0%nat].
Proof.
  split; [cbn; lia|].
  destruct (@removal_never_propagates_errors ftrace_busy) as (_ & _ & Hexit).
  destruct (Hexit (@module_image ftrace_busy) ltac:(cbn; lia))
    as (k' & l & Hrun & Hlog & Hun).
  exists k', l. split_and!; done.
Defined.

(** Unloading under the failing kernel: both calls are made, both failures
    are logged, and the unload message follows. *)
Example fh_exit_ftrace_busy :
  klog <$> (snd <$> @fh_exit ftrace_busy (@module_image ftrace_busy))
  = Some [(unregister_ftrace_function 0, -16);
          (pr_debug "unregister_ftrace_function() failed: %d\n" (arg_d (-16)), 0);
          (ftrace_set_filter_ip 0 0 1 0, -16);
          (pr_debug "ftrace_set_filter_ip() failed: %d\n" (arg_d (-16)), 0);
          (pr_info "module unloaded\n", 0)].
Proof. reflexivity. Qed.

End HookFacts.
(** *** The replacement trap handler *)

Module TrapFacts.
Import TrapHook.
Local Open Scope Z_scope.

Section Traps.
Context {pt_regs : Type} `{!trap_env pt_regs}.
Implicit Types (regs : pt_regs) (str : string).

(** C2.  A fault from kernel mode, or with a trap number other than 6, goes
    to the original handler with the register snapshot and all arguments
    as received, and nothing else is called; the emulator is called only
    for a user-mode fault with trap number 6. *)
Theorem only_user_trap_6_is_emulated regs error_code str trapnr signr :
  (user_mode regs = false \/ trapnr <> 6 ->
   fh_do_error_trap regs error_code str trapnr signr
   = (do_error_trap regs error_code str trapnr signr,
      [called_orig_do_error_trap regs error_code str trapnr signr]))
  /\ (forall c, c ∈ (fh_do_error_trap regs error_code str trapnr signr).2 ->
       is_emulation c = true -> user_mode regs = true /\ trapnr = 6).
Proof.
  unfold fh_do_error_trap, user_trap, kernel_trap, orig_do_error_trap.
  split.
  - intros [Hk | Hnr].
    + by rewrite Hk.
    + apply Z.eqb_neq in Hnr. rewrite Hnr. by destruct (user_mode regs).
  - intros c. destruct (user_mode regs); [destruct (trapnr =? 6) eqn:Hnr|].
    + intros _ _. by apply Z.eqb_eq in Hnr.
    + cbn. intros ->%list_elem_of_singleton. done.
    + cbn. intros ->%list_elem_of_singleton. done.
Qed.

(** C9.  The original handler is called exactly once when [user_trap] or
    [kernel_trap] returns 0 and not at all when it returns nonzero. *)
Theorem orig_called_iff_not_handled regs error_code str trapnr signr :
  orig_calls (fh_do_error_trap regs error_code str trapnr signr).2
  = if nonzero (trap_handled regs trapnr) then 0%nat else 1%nat.
Proof.
  unfold fh_do_error_trap, trap_handled, user_trap, kernel_trap,
    orig_do_error_trap.
  destruct (user_mode regs); [|reflexivity].
  destruct (trapnr =? 6); [|reflexivity].
  destruct (opemu_utrap regs) as [r regs'].
  destruct (nonzero r); reflexivity.
Qed.

End Traps.

Lemma only_user_trap_6_is_emulated_witness :
  let regs := {| cpl_user := false; ip := 4096 |} in
  @user_mode _ always_emulates regs = false
  /\ @fh_do_error_trap _ always_emulates regs 0 "invalid opcode" 6 4
     = (regs, [called_orig_do_error_trap regs 0 "invalid opcode" 6 4]).
Proof.
  intros regs. split; [reflexivity|].
  apply (proj1 (@only_user_trap_6_is_emulated _ always_emulates regs 0
                  "invalid opcode" 6 4)).
  left. reflexivity.
Defined.

(** A user-mode invalid-opcode fault that the emulator handles: the
    instruction pointer moves on and the original handler is not called. *)
Example user_trap_6_emulated :
  @fh_do_error_trap _ always_emulates {| cpl_user := true; ip := 4096 |} 0
    "invalid opcode" 6 4
  = ({| cpl_user := true; ip := 4101 |},
     [called_opemu_utrap {| cpl_user := true; ip := 4096 |}]).
Proof. reflexivity. Qed.

End TrapFacts.

(** *** Further properties of the dispatcher *)

Module BmiMore.
Import Bmi.
Local Open Scope Z_scope.

(** The ModRM byte packs mod, reg and rm as 2 + 3 + 3 bits; [modrm_reg] and
    [modrm_rm] recover the two register fields, and both stay below 8
    for any byte. *)
Theorem modrm_fields_round_trip (md reg rm : Z) :
  0 <= md < 4 -> 0 <= reg < 8 -> 0 <= rm < 8 ->
  modrm_reg (md * 64 + reg * 8 + rm) = reg
  /\ modrm_rm (md * 64 + reg * 8 + rm) = rm.
Proof.
  intros Hmd Hreg Hrm. unfold modrm_reg, modrm_rm.
  change 0x7 with (Z.ones 3). rewrite !Z.land_ones, Z.shiftr_div_pow2 by lia.
  change (2 ^ 3) with 8. split.
  - replace (md * 64 + reg * 8 + rm) with (rm + (md * 8 + reg) * 8) by lia.
    rewrite Z.div_add by lia. rewrite (Z.div_small rm) by lia.
    rewrite Z.add_0_l, Z.add_comm, Z.mod_add by lia. apply Z.mod_small. lia.
  - replace (md * 64 + reg * 8 + rm) with (rm + (md * 8 + reg) * 8) by lia.
    rewrite Z.mod_add by lia. apply Z.mod_small. lia.
Qed.

Lemma modrm_fields_round_trip_witness :
  modrm_reg (3 * 64 + 1 * 8 + 5) = 1 /\ modrm_rm (3 * 64 + 1 * 8 + 5) = 5.
Proof. apply modrm_fields_round_trip; lia. Defined.

Lemma modrm_reg_range (b : Z) : 0 <= modrm_reg b < 8.
Proof.
  unfold modrm_reg. change 0x7 with (Z.ones 3). rewrite Z.land_ones by lia.
  apply Z.mod_pos_bound. lia.
Qed.

(** The destination index [num_dst]: ModRM.reg, plus 8 when [high_reg] is
    set.  It is a register number below 16, so the [uint8_t] addition of
    the source never wraps. *)
Theorem num_dst_is_a_register (b high_reg : Z) :
  let num_dst := if high_reg =? 0 then modrm_reg b else uint8_t (modrm_reg b + 8) in
  0 <= num_dst < 16
  /\ num_dst = modrm_reg b + (if high_reg =? 0 then 0 else 8).
Proof.
  pose proof (modrm_reg_range b) as Hr. cbv zeta.
  destruct (high_reg =? 0).
  - lia.
  - unfold uint8_t. rewrite Z.mod_small by lia. lia.
Qed.

Section Dispatch.
Context {pt_regs M64 M32 : Type} `{!bmi_h pt_regs M64 M32}.
Implicit Types (regs : pt_regs) (modrm bytep : list Z).

Ltac fetch :=
  unfold fetched_regs;
  destruct (is_saved_state64 _);
  [ destruct (get_x64regs _ _ _ _ _ _ _) as [[[[? ?] ?] ?] ?]
  | destruct (get_x64regs_m32 _ _ _ _ _ _ _) as [[[[? ?] ?] ?] ?] ];
  cbn [snd after_switch].

(** An opcode byte that is none of the six [case] labels is not handled:
    the call returns 0 and loads no register (the snapshot is the one
    the operand fetch left). *)
Theorem unknown_opcode_not_handled regs vexreg opcode modrm high_reg
    high_index high_base operand_size leading_opcode simd_prefix bytep
    ins_size modbyte b imm :
  head modrm = Some b ->
  load_u8 bytep (get_consumed modrm) = Some imm ->
  opcode ∉ [0xF0; 0xF2; 0xF3; 0xF5; 0xF6; 0xF7] ->
  bmi_instruction regs vexreg opcode modrm high_reg high_index high_base
    operand_size leading_opcode simd_prefix bytep ins_size modbyte
  = Some (0, fetched_regs regs vexreg modrm high_reg high_index high_base modbyte).
Proof.
  intros Hb Himm Hop.
  rewrite (BmiFacts.bmi_instruction_defined _ _ _ _ _ _ _ _ _ _ _ _ _ b imm Hb Himm).
  assert (Hne : forall c, c ∈ [0xF0; 0xF2; 0xF3; 0xF5; 0xF6; 0xF7] ->
                          (opcode =? c) = false).
  { intros c Hc. apply Z.eqb_neq. intros ->. done. }
  fetch.
  - unfold bmi_switch64. by rewrite !Hne by set_solver.
  - unfold bmi_switch32. by rewrite !Hne by set_solver.
Qed.

Ltac eqb_cases Hnot :=
  repeat match goal with
         | |- context [?x =? ?c] =>
             let E := fresh "E" in
             destruct (x =? c) eqn:E;
             [apply Z.eqb_eq in E; try subst x|]
         end;
  try reflexivity;
  exfalso; eapply Hnot;
  repeat match goal with
         | E : modrm_reg _ = _ |- _ => rewrite E
         end; constructor.

(** A known opcode byte under a prefix class, map or ModRM.reg value that
    selects no operation is left by [break]: no operation runs and no
    register is loaded, yet the call returns the byte count
    [ins_size + get_consumed modrm] as if the instruction had been
    handled. *)
Theorem unmatched_combination_reports_size regs vexreg opcode modrm high_reg
    high_index high_base operand_size leading_opcode simd_prefix bytep
    ins_size modbyte b imm :
  head modrm = Some b ->
  load_u8 bytep (get_consumed modrm) = Some imm ->
  opcode ∈ [0xF0; 0xF2; 0xF3; 0xF5; 0xF6; 0xF7] ->
  (forall op, ~ recognized opcode simd_prefix leading_opcode (modrm_reg b) op) ->
  bmi_instruction regs vexreg opcode modrm high_reg high_index high_base
    operand_size leading_opcode simd_prefix bytep ins_size modbyte
  = Some (uint8_t (ins_size + get_consumed modrm),
          fetched_regs regs vexreg modrm high_reg high_index high_base modbyte).
Proof.
  intros Hb Himm Hop Hnot.
  rewrite (BmiFacts.bmi_instruction_defined _ _ _ _ _ _ _ _ _ _ _ _ _ b imm Hb Himm).
  set (count := uint8_t (ins_size + get_consumed modrm)).
  set (modreg := modrm_reg b) in *.
  fetch; [unfold bmi_switch64|unfold bmi_switch32];
    repeat (apply elem_of_cons in Hop as [->|Hop]);
    try (by apply elem_of_nil in Hop);
    cbn [Z.eqb Pos.eqb]; subst modreg; eqb_cases Hnot.
Qed.

Ltac run_switch :=
  repeat match goal with
         | |- context [?x =? ?c] => destruct (x =? c) eqn:?
         end;
  repeat match goal with
         | |- context [let '(_, _) := ?e in _] => destruct e
         end.

(** The byte read from [bytep] is used by rorx alone: under any other
    opcode, prefix class or map the outcome is the same whatever byte
    stands at index [get_consumed modrm], as long as one can be read. *)
Theorem immediate_matters_only_for_rorx regs vexreg opcode modrm high_reg
    high_index high_base operand_size leading_opcode simd_prefix bytep bytep'
    ins_size modbyte b imm imm' :
  head modrm = Some b ->
  load_u8 bytep (get_consumed modrm) = Some imm ->
  load_u8 bytep' (get_consumed modrm) = Some imm' ->
  ~ (opcode = 0xF0 /\ simd_prefix = 3 /\ leading_opcode = 3) ->
  bmi_instruction regs vexreg opcode modrm high_reg high_index high_base
    operand_size leading_opcode simd_prefix bytep ins_size modbyte
  = bmi_instruction regs vexreg opcode modrm high_reg high_index high_base
      operand_size leading_opcode simd_prefix bytep' ins_size modbyte.
Proof.
  intros Hb Himm Himm' Hnot.
  rewrite (BmiFacts.bmi_instruction_defined _ _ _ _ _ _ _ _ _ _ _ _ _ b imm Hb Himm).
  rewrite (BmiFacts.bmi_instruction_defined _ _ _ _ _ _ _ _ _ _ _ _ _ b imm' Hb Himm').
  do 2 f_equal.
  destruct (is_saved_state64 regs).
  - destruct (get_x64regs _ _ _ _ _ _ _) as [[[[s v] d] a] r].
    unfold bmi_switch64.
    destruct (opcode =? 0xF0) eqn:E1; [|reflexivity].
    destruct (simd_prefix =? 3) eqn:E2; [|reflexivity].
    destruct (leading_opcode =? 3) eqn:E3; [|reflexivity].
    exfalso. apply Hnot. by rewrite <- !Z.eqb_eq.
  - destruct (get_x64regs_m32 _ _ _ _ _ _ _) as [[[[s v] d] a] r].
    unfold bmi_switch32.
    destruct (opcode =? 0xF0) eqn:E1; [|reflexivity].
    destruct (simd_prefix =? 3) eqn:E2; [|reflexivity].
    destruct (leading_opcode =? 3) eqn:E3; [|reflexivity].
    exfalso. apply Hnot. by rewrite <- !Z.eqb_eq.
Qed.

Lemma uint8_t_range (z : Z) : 0 <= uint8_t z < 256.
Proof. unfold uint8_t. apply Z.mod_pos_bound. lia. Qed.

(** Whatever the arguments, a defined call returns a value that fits the
    [uint8_t] it is computed in: 0, the byte count, or the byte count
    plus one, each below 256. *)
Theorem returned_count_is_a_byte regs vexreg opcode modrm high_reg high_index
    high_base operand_size leading_opcode simd_prefix bytep ins_size modbyte
    count regs' :
  bmi_instruction regs vexreg opcode modrm high_reg high_index high_base
    operand_size leading_opcode simd_prefix bytep ins_size modbyte
  = Some (count, regs') ->
  0 <= count < 256
  /\ (count = 0
      \/ count = uint8_t (ins_size + get_consumed modrm)
      \/ count = uint8_t (ins_size + get_consumed modrm + 1)).
Proof.
  intros Hrun.
  destruct (head modrm) as [b|] eqn:Hb;
    [|unfold bmi_instruction in Hrun; by rewrite Hb in Hrun].
  destruct (load_u8 bytep (get_consumed modrm)) as [imm|] eqn:Himm.
  2:{ assert (Hsome : is_Some (bmi_instruction regs vexreg opcode modrm high_reg
          high_index high_base operand_size leading_opcode simd_prefix bytep
          ins_size modbyte)) by (by rewrite Hrun).
      unfold bmi_instruction in Hsome. rewrite Hb in Hsome.
      cbn [mbind option_bind] in Hsome.
      destruct (is_saved_state64 regs).
      - destruct (get_x64regs _ _ _ _ _ _ _) as [[[[s v] d] a] r].
        rewrite Himm in Hsome. by destruct Hsome.
      - destruct (get_x64regs_m32 _ _ _ _ _ _ _) as [[[[s v] d] a] r].
        rewrite Himm in Hsome. by destruct Hsome. }
  rewrite (BmiFacts.bmi_instruction_defined _ _ _ _ _ _ _ _ _ _ _ _ _ b imm Hb Himm)
    in Hrun.
  pose proof (uint8_t_range (ins_size + get_consumed modrm)) as R0.
  pose proof (uint8_t_range (ins_size + get_consumed modrm + 1)) as R1.
  assert (Hone : uint8_t (uint8_t (ins_size + get_consumed modrm) + 1)
                 = uint8_t (ins_size + get_consumed modrm + 1))
    by apply BmiFacts.uint8_t_idemp_add.
  revert Hrun.
  destruct (is_saved_state64 regs).
  - destruct (get_x64regs _ _ _ _ _ _ _) as [[[[s v] d] a] r].
    unfold bmi_switch64. run_switch; cbn [after_switch]; rewrite ?Hone;
      intros [= <- _]; lia.
  - destruct (get_x64regs_m32 _ _ _ _ _ _ _) as [[[[s v] d] a] r].
    unfold bmi_switch32. run_switch; cbn [after_switch]; rewrite ?Hone;
      intros [= <- _]; lia.
Qed.

(** mulx loads two registers, first the one selected by ModRM.reg and then
    the one selected by vvvv.  When a later load of a register replaces
    an earlier one and both fields select the same register, that
    register ends up with the second result of [mulx64]. *)
Theorem mulx_same_destination regs vexreg modrm high_reg high_index high_base
    operand_size bytep ins_size modbyte b imm src vsrc dst a regs1 res dres regs2 :
  head modrm = Some b ->
  load_u8 bytep (get_consumed modrm) = Some imm ->
  is_saved_state64 regs = true ->
  get_x64regs modrm high_reg high_index high_base vexreg regs modbyte
  = (src, vsrc, dst, a, regs1) ->
  mulx64 src regs1 operand_size = (res, dres, regs2) ->
  (forall n x y r, _load_m64 n y (_load_m64 n x r) = _load_m64 n y r) ->
  (if high_reg =? 0 then modrm_reg b else uint8_t (modrm_reg b + 8)) = vexreg ->
  bmi_instruction regs vexreg 0xF6 modrm high_reg high_index high_base
    operand_size 2 3 bytep ins_size modbyte
  = Some (uint8_t (ins_size + get_consumed modrm), _load_m64 vexreg dres regs2).
Proof.
  intros Hb Himm H64 Hget Hmul Hlast Hsame.
  rewrite (BmiFacts.bmi_instruction_defined _ _ _ _ _ _ _ _ _ _ _ _ _ b imm Hb Himm).
  rewrite H64, Hget. unfold bmi_switch64. cbn [Z.eqb Pos.eqb].
  rewrite Hmul, Hsame. cbn [after_switch]. by rewrite Hlast.
Qed.

End Dispatch.

Import RefCpu.

Lemma unknown_opcode_not_handled_witness :
  head [0xC0] = Some 0xC0
  /\ load_u8 [0xC0; 0x90] (get_consumed [0xC0]) = Some 0x90
  /\ (0xF1 ∉ [0xF0; 0xF2; 0xF3; 0xF5; 0xF6; 0xF7])
  /\ bmi_instruction (regs0 true) 0 0xF1 [0xC0] 0 0 0 64 2 0 [0xC0; 0x90] 4 0xC0
     = Some (0, regs0 true).
Proof.
  assert (Hb : head [0xC0] = Some 0xC0) by reflexivity.
  assert (Himm : load_u8 [0xC0; 0x90] (get_consumed [0xC0]) = Some 0x90)
    by reflexivity.
  assert (Hop : 0xF1 ∉ [0xF0; 0xF2; 0xF3; 0xF5; 0xF6; 0xF7]).
  { intros Hin. repeat (apply elem_of_cons in Hin as [Hin|Hin]; [discriminate|]).
    by apply elem_of_nil in Hin. }
  split_and!; [done..|].
  by rewrite (unknown_opcode_not_handled (regs0 true) 0 0xF1 [0xC0] 0 0 0 64 2 0
                [0xC0; 0x90] 4 0xC0 0xC0 0x90 Hb Himm Hop).
Defined.

Lemma unmatched_combination_reports_size_witness :
  head [0xC0] = Some 0xC0
  /\ load_u8 [0xC0; 0x90] (get_consumed [0xC0]) = Some 0x90
  /\ (0xF7 ∈ [0xF0; 0xF2; 0xF3; 0xF5; 0xF6; 0xF7])
  /\ (forall op, ~ recognized 0xF7 0 3 (modrm_reg 0xC0) op)
  /\ bmi_instruction (regs0 false) 0 0xF7 [0xC0] 0 0 0 32 3 0 [0xC0; 0x90] 4 0xC0
     = Some (5, regs0 false).
Proof.
  assert (Hb : head [0xC0] = Some 0xC0) by reflexivity.
  assert (Himm : load_u8 [0xC0; 0x90] (get_consumed [0xC0]) = Some 0x90)
    by reflexivity.
  assert (Hop : 0xF7 ∈ [0xF0; 0xF2; 0xF3; 0xF5; 0xF6; 0xF7]) by set_solver.
  assert (Hnot : forall op, ~ recognized 0xF7 0 3 (modrm_reg 0xC0) op).
  { intros op Hrec. inversion Hrec. }
  split_and!; [done..|].
  by rewrite (unmatched_combination_reports_size (regs0 false) 0 0xF7 [0xC0] 0 0 0
                32 3 0 [0xC0; 0x90] 4 0xC0 0xC0 0x90 Hb Himm Hop Hnot).
Defined.

Lemma immediate_matters_only_for_rorx_witness :
  head [0xC1] = Some 0xC1
  /\ load_u8 [0xC1; 0x00] (get_consumed [0xC1]) = Some 0x00
  /\ load_u8 [0xC1; 0xFF] (get_consumed [0xC1]) = Some 0xFF
  /\ ~ (0xF2 = 0xF0 /\ 0 = 3 /\ 2 = 3)
  /\ bmi_instruction (regs0 true) 0 0xF2 [0xC1] 0 0 0 64 2 0 [0xC1; 0x00] 4 0xC1
     = bmi_instruction (regs0 true) 0 0xF2 [0xC1] 0 0 0 64 2 0 [0xC1; 0xFF] 4 0xC1.
Proof.
  assert (Hnot : ~ (0xF2 = 0xF0 /\ 0 = 3 /\ 2 = 3)).
  { intros (Hop & _). discriminate Hop. }
  split_and!; [reflexivity..|done|].
  apply (immediate_matters_only_for_rorx (regs0 true) 0 0xF2 [0xC1] 0 0 0 64 2 0
           [0xC1; 0x00] [0xC1; 0xFF] 4 0xC1 0xC1 0x00 0xFF);
    [reflexivity..|done].
Defined.

Lemma returned_count_is_a_byte_witness :
  bmi_instruction (regs0 true) 0 0xF2 [0xC0] 0 0 0 64 2 0 [0xC0; 0x07] 5 0xC0
  = Some (6, set_reg 64 0 0 (regs0 true))
  /\ 0 <= 6 < 256
  /\ (6 = 0 \/ 6 = uint8_t (5 + get_consumed [0xC0])
      \/ 6 = uint8_t (5 + get_consumed [0xC0] + 1)).
Proof.
  assert (Hrun :
    bmi_instruction (regs0 true) 0 0xF2 [0xC0] 0 0 0 64 2 0 [0xC0; 0x07] 5 0xC0
    = Some (6, set_reg 64 0 0 (regs0 true))) by reflexivity.
  split; [exact Hrun|].
  exact (returned_count_is_a_byte (regs0 true) 0 0xF2 [0xC0] 0 0 0 64 2 0
           [0xC0; 0x07] 5 0xC0 6 (set_reg 64 0 0 (regs0 true)) Hrun).
Defined.

Lemma mulx_same_destination_witness :
  head [0xC8] = Some 0xC8
  /\ load_u8 [0xC8; 0x90] (get_consumed [0xC8]) = Some 0x90
  /\ is_saved_state64 (regs0 true) = true
  /\ get_x64regs [0xC8] 0 0 0 1 (regs0 true) 0xC8 = (1, 2, 2, 0, regs0 true)
  /\ mulx64 1 (regs0 true) 64 = (0, 3, regs0 true)
  /\ (forall n x y r, _load_m64 n y (_load_m64 n x r) = _load_m64 n y r)
  /\ (if 0 =? 0 then modrm_reg 0xC8 else uint8_t (modrm_reg 0xC8 + 8)) = 1
  /\ bmi_instruction (regs0 true) 1 0xF6 [0xC8] 0 0 0 64 2 3 [0xC8; 0x90] 4 0xC8
     = Some (5, set_reg 64 1 3 (regs0 true)).
Proof.
  assert (Hlast : forall n x y (r : ref_regs),
            _load_m64 n y (_load_m64 n x r) = _load_m64 n y r).
  { intros n x y r. unfold _load_m64, ref_bmi_h, set_reg. cbn [gpr long_mode].
    by rewrite list_insert_insert_eq. }
  split_and!; [reflexivity..|exact Hlast|reflexivity|].
  rewrite (mulx_same_destination (regs0 true) 1 [0xC8] 0 0 0 64 [0xC8; 0x90] 4
             0xC8 0xC8 0x90 1 2 2 0 (regs0 true) 0 3 (regs0 true));
    first [reflexivity|exact Hlast].
Defined.

End BmiMore.

(** *** Further properties of hook installation and removal *)

Module HookMore.
Import TrapHook HookFacts.
Local Open Scope Z_scope.

Lemma ftrace_calls_app l1 l2 :
  ftrace_calls (l1 ++ l2) = ftrace_calls l1 ++ ftrace_calls l2.
Proof. apply List.filter_app. Qed.

Section Hooks.
Context `{!linux}.

(** The three outcomes of [fh_resolve_hook_address], by the return value
    [r] of [register_kprobe] and the address [a] the kprobe reports.
    - [r < 0]: 0 is returned after that single call; hook and variables
      are untouched.
    - [r >= 0], [a = 0]: the kprobe is unregistered, the hook address is 0,
      the failure is logged, [- ENOENT] is returned and the [original]
      variable is not written.
    - [r >= 0], [a <> 0]: the kprobe is unregistered, [a] is stored in
      the hook and in the [original] variable, and 0 is returned. *)
Theorem resolve_outcomes p k h :
  hook_cells k !! p = Some h ->
  let sym := "kallsyms_lookup_name"%string in
  let r := call_result k (register_kprobe sym) in
  let k1 := logged k (register_kprobe sym) r in
  let a := kprobe_addr k1 sym in
  let cells := <[p := set_address h a]> (hook_cells k) in
  fh_resolve_hook_address p k =
    if r <? 0 then Some (0, k1)
    else if a =? 0 then
      Some (- ENOENT,
            {| hook_cells := cells; vars := vars k;
               klog := klog k ++ [(register_kprobe sym, r);
                                  (unregister_kprobe sym, 0);
                                  (pr_debug "unresolved symbol: %s\n"
                                     (arg_s (name h)), 0)] |})
    else
      Some (0,
            {| hook_cells := cells; vars := <[original h := a]> (vars k);
               klog := klog k ++ [(register_kprobe sym, r);
                                  (unregister_kprobe sym, 0)] |}).
Proof.
  intros Hp sym r k1 a cells. subst cells a k1.
  unfold fh_resolve_hook_address, bind, invoke, invoke_void, kp_addr,
    load_hook, store_hook, store_var, ret.
  rewrite after_plain_call by reflexivity.
  fold sym r. destruct (r <? 0); [reflexivity|].
  repeat (cbn [hook_cells vars klog logged];
          first [ rewrite Hp
                | rewrite list_lookup_insert_eq by (by eapply lookup_lt_Some) ]).
  cbn [address set_address name original].
  destruct (kprobe_addr _ _ =? 0); unfold logged;
    cbn [hook_cells vars klog]; rewrite <- ?app_assoc; reflexivity.
Qed.

(** Installing the hook at [p] leaves every other hook of the array as it
    was, and keeps the [name], [function] and [original] fields of the
    hook itself.  The [ops] of the hook are handed to the kernel; if the
    kernel leaves them alone, the hook carries [fh_ftrace_thunk] and the
    three flags after a successful installation. *)
Theorem install_touches_only_its_hook p k h :
  hook_cells k !! p = Some h ->
  exists err k' l h',
    runs (fh_install_hook p) k err k' l
    /\ (forall q, q <> p -> hook_cells k' !! q = hook_cells k !! q)
    /\ hook_cells k' !! p = Some h'
    /\ name h' = name h /\ function h' = function h /\ original h' = original h
    /\ (ops_untouched -> err = 0 ->
        ops h' = {| func := fh_ftrace_thunk;
                    flags := Z.lor (Z.lor FTRACE_OPS_FL_SAVE_REGS
                                          FTRACE_OPS_FL_RECURSION_SAFE)
                                   FTRACE_OPS_FL_IPMODIFY |}).
Proof.
  intros Hp.
  destruct (fh_install_hook_result p k h Hp)
    as (err & k' & l & Hrun & h' & Hcells & Hres).
  exists err, k', l, h'.
  destruct (install_result_kept _ _ _ _ _ _ _ _ _ Hres) as (Hn & Hf & Ho).
  split_and!; try done.
  - intros q Hq. rewrite Hcells. by apply list_lookup_insert_ne.
  - rewrite Hcells. apply list_lookup_insert_eq. by eapply lookup_lt_Some.
  - intros Hu Herr. destruct Hres; try done. cbn. auto.
Qed.

(** The ftrace calls of one installation follow one of four patterns,
    [a] being the hook address after resolution:
    - no call, when resolution returned [- ENOENT];
    - the filter call alone, failed, its error being returned;
    - filter set, registration failed with the returned error, filter
      removed again;
    - filter set and hook registered, 0 returned.
    So a failed installation never leaves a registration behind, and
    removes the filter it had set. *)
Theorem install_ftrace_patterns p k h :
  hook_cells k !! p = Some h ->
  exists err k' l a,
    runs (fh_install_hook p) k err k' l
    /\ ((err = - ENOENT /\ ftrace_calls l = [])
        \/ (err <> 0
            /\ ftrace_calls l = [(ftrace_set_filter_ip p a 0 0, err)])
        \/ (err <> 0
            /\ exists r,
                 ftrace_calls l = [(ftrace_set_filter_ip p a 0 0, 0);
                                   (register_ftrace_function p, err);
                                   (ftrace_set_filter_ip p a 1 0, r)])
        \/ (err = 0
            /\ ftrace_calls l = [(ftrace_set_filter_ip p a 0 0, 0);
                                  (register_ftrace_function p, 0)])).
Proof.
  intros Hp.
  destruct (fh_install_hook_result p k h Hp)
    as (err & k' & l & Hrun & h' & Hcells & Hres).
  exists err, k', l, (address h'). split; [exact Hrun|].
  destruct Hres; unfold kprobe_calls; destruct (_ <? 0);
    cbn [app ftrace_calls List.filter is_ftrace_call fst address set_ops
           set_address];
    first [ left; split; reflexivity
          | right; left; split; [assumption|reflexivity]
          | right; right; left; split; [assumption|eexists; reflexivity]
          | right; right; right; split; reflexivity ].
Qed.

Lemma fh_install_hooks_wp hooks count k :
  (hooks + count <= length (hook_cells k))%nat ->
  wp (fh_install_hooks hooks count) k (fun err _ l =>
    if nonzero err
    then exists i, (i < count)%nat
           /\ registered l = seq hooks i
           /\ unregistered l = reverse (seq hooks i)
    else err = 0 /\ registered l = seq hooks count /\ unregistered l = []).
Proof.
  intros Hlen. unfold fh_install_hooks. apply wp_bind.
  eapply wp_mono;
    [apply wp_runs, (install_loop_result hooks count 0 k); lia|].
  intros [err i] k1 l1 (Hcase & _ & Hlen1). cbn [fst snd] in Hcase.
  rewrite Nat.add_0_r, Nat.sub_0_r in Hcase. cbn beta iota.
  destruct Hcase as [(-> & -> & Hrun)
                    |(Herr & Hi & km & la & lb & h & h' & -> & Hrun & Hh & Hres & _)].
  - destruct (installed_run_facts _ _ _ _ _ Hrun)
      as (_ & _ & _ & Hreg & Hun & _).
    cbn [nonzero Z.eqb negb]. apply wp_ret. rewrite app_nil_r. done.
  - destruct (installed_run_facts _ _ _ _ _ Hrun)
      as (_ & _ & _ & Hrega & Huna & _).
    destruct (install_result_projections _ _ _ _ _ _ _ _ _ Hres)
      as (Hunb & Hregb & _).
    apply nonzero_true in Herr. rewrite Herr in Hregb |- *.
    apply wp_bind.
    eapply wp_mono; [apply (rollback_loop_result hooks i k1); lia|].
    intros _ k2 l2 (Hreg2 & Hun2 & _). apply wp_ret.
    rewrite Herr. exists i.
    rewrite !registered_app, !unregistered_app, Hrega, Hregb, Hreg2, Huna, Hunb, Hun2.
    cbn. rewrite !app_nil_r. split_and!; [lia|done..].
Qed.

(** Load followed by unload.  When [fh_init] returns 0, its calls register
    the hooks of [demo_hooks] and end with [module loaded]; the
    following [fh_exit] unregisters exactly those hooks, in the same
    order, registers nothing and ends with [module unloaded]. *)
Theorem load_then_unload k k1 :
  (demo_hooks + ARRAY_SIZE_demo_hooks <= length (hook_cells k))%nat ->
  fh_init k = Some (0, k1) ->
  exists k2 l1 l2,
    fh_exit k1 = Some ((), k2)
    /\ klog k2 = klog k ++ l1 ++ [(pr_info "module loaded\n", 0)]
                        ++ l2 ++ [(pr_info "module unloaded\n", 0)]
    /\ registered l1 = seq demo_hooks ARRAY_SIZE_demo_hooks
    /\ unregistered l1 = []
    /\ registered l2 = []
    /\ unregistered l2 = seq demo_hooks ARRAY_SIZE_demo_hooks.
Proof.
  intros Hlen Hinit.
  destruct (wp_length _ _ _ (fh_install_hooks_wp demo_hooks ARRAY_SIZE_demo_hooks k Hlen))
    as (err & k0 & l1 & (Hrun & Hlog & _) & Hcase & Hlen0).
  unfold fh_init, bind in Hinit. rewrite Hrun in Hinit.
  destruct (nonzero err) eqn:Herr.
  - apply nonzero_true in Herr. by injection Hinit as -> _.
  - destruct Hcase as (-> & Hreg1 & Hun1).
    cbn in Hinit. injection Hinit as <-.
    destruct (remove_loop_result demo_hooks ARRAY_SIZE_demo_hooks 0
                (logged k0 (pr_info "module loaded\n") 0)
                ltac:(cbn [logged hook_cells]; lia))
      as ([] & k2 & l2 & (Hrun2 & Hlog2 & _) & Hreg2 & Hun2 & _).
    rewrite Nat.add_0_r in Hun2.
    exists (logged k2 (pr_info "module unloaded\n") 0), l1, l2.
    unfold fh_exit, bind, fh_remove_hooks. rewrite Hrun2.
    split_and!; try done.
    cbn [invoke_void logged klog]. rewrite Hlog2. cbn [logged klog].
    rewrite Hlog, <- !app_assoc. done.
Qed.

Lemma fh_remove_hook_outside p k :
  (length (hook_cells k) <= p)%nat -> fh_remove_hook p k = None.
Proof.
  intros Hp. unfold fh_remove_hook, bind, invoke, invoke_void, load_hook, ret.
  destruct (nonzero _); cbn [hook_cells logged after_call written ops_arg];
    by rewrite lookup_ge_None_2 by (by rewrite length_alter).
Qed.

Lemma remove_loop_outside hooks n : forall i k,
  (0 < n)%nat -> (length (hook_cells k) < hooks + i + n)%nat ->
  remove_loop hooks n i k = None.
Proof.
  induction n as [|n IH]; intros i k Hn Hout; [lia|].
  cbn [remove_loop]. unfold bind.
  destruct (decide (hooks + i < length (hook_cells k))%nat) as [Hin|Hin].
  - destruct (lookup_lt_is_Some_2 _ _ Hin) as [h Hh].
    destruct (fh_remove_hook_result _ _ _ Hh) as ([] & k' & l & (-> & _ & Hc) & _).
    apply IH; rewrite ?Hc; lia.
  - rewrite fh_remove_hook_outside by lia. done.
Qed.

(** [fh_remove_hooks] goes through all [count] entries whatever the kernel
    answers, so it stays inside the array exactly when the [count]
    entries from [hooks] on lie inside it (or there is nothing to
    remove). *)
Theorem fh_remove_hooks_in_bounds hooks count k :
  is_Some (fh_remove_hooks hooks count k)
  <-> count = 0%nat \/ (hooks + count <= length (hook_cells k))%nat.
Proof.
  split.
  - intros Hsome.
    destruct (decide (count = 0%nat)) as [|Hc]; [by left|right].
    destruct (decide (hooks + count <= length (hook_cells k))%nat) as [|Hout];
      [done|].
    unfold fh_remove_hooks in Hsome.
    rewrite remove_loop_outside in Hsome by lia. by destruct Hsome.
  - intros [-> | Hlen]; [by eexists|].
    destruct (remove_loop_result hooks count 0 k ltac:(lia))
      as ([] & k' & l & (Hr & _) & _).
    unfold fh_remove_hooks. rewrite Hr. by eexists.
Qed.

End Hooks.

Lemma resolve_outcomes_witness :
  hook_cells (@module_image ftrace_busy) !! 0%nat
  = Some (@HOOK ftrace_busy "do_error_trap" "fh_do_error_trap" "orig_do_error_trap")
  /\ (vars <$> (snd <$> @fh_resolve_hook_address ftrace_busy 0
                           (@module_image ftrace_busy)))
     = Some {[ "orig_do_error_trap"%string := 0xffffffff81000000 ]}.
Proof.
  assert (Hp : hook_cells (@module_image ftrace_busy) !! 0%nat
               = Some (@HOOK ftrace_busy "do_error_trap" "fh_do_error_trap"
                         "orig_do_error_trap")) by reflexivity.
  split; [exact Hp|].
  pose proof (@resolve_outcomes ftrace_busy 0 (@module_image ftrace_busy) _ Hp) as H.
  cbv zeta in H. rewrite H. reflexivity.
Defined.

Lemma install_touches_only_its_hook_witness :
  hook_cells (@module_image ftrace_ready) !! 0%nat
  = Some (@HOOK ftrace_ready "do_error_trap" "fh_do_error_trap" "orig_do_error_trap")
  /\ exists err k' h',
       @fh_install_hook ftrace_ready 0 (@module_image ftrace_ready) = Some (err, k')
       /\ err = 0
       /\ hook_cells k' !! 0%nat = Some h'
       /\ name h' = "__x64_do_error_trap"%string
       /\ ops h' = {| func := fh_ftrace_thunk; flags := 146 |}.
Proof.
  assert (Hp : hook_cells (@module_image ftrace_ready) !! 0%nat
               = Some (@HOOK ftrace_ready "do_error_trap" "fh_do_error_trap"
                         "orig_do_error_trap")) by reflexivity.
  split; [exact Hp|].
  destruct (@install_touches_only_its_hook ftrace_ready 0
              (@module_image ftrace_ready) _ Hp)
    as (err & k' & l & h' & (Hrun & _) & _ & Hh' & Hname & _ & _ & Hops).
  assert (Herr : err = 0).
  { assert (Hfst : fst <$> @fh_install_hook ftrace_ready 0 (@module_image ftrace_ready)
                   = Some err) by (by rewrite Hrun).
    vm_compute in Hfst. by injection Hfst as <-. }
  exists err, k', h'. split_and!; [done..|].
  apply Hops; [|exact Herr]. intros ? ? ?. reflexivity.
Defined.

Lemma install_ftrace_patterns_witness :
  hook_cells (@module_image ftrace_busy) !! 0%nat
  = Some (@HOOK ftrace_busy "do_error_trap" "fh_do_error_trap" "orig_do_error_trap")
  /\ exists err k' l,
       @fh_install_hook ftrace_busy 0 (@module_image ftrace_busy) = Some (err, k')
       /\ klog k' = l
       /\ (length (ftrace_calls l) <= 3)%nat.
Proof.
  assert (Hp : hook_cells (@module_image ftrace_busy) !! 0%nat
               = Some (@HOOK ftrace_busy "do_error_trap" "fh_do_error_trap"
                         "orig_do_error_trap")) by reflexivity.
  split; [exact Hp|].
  destruct (@install_ftrace_patterns ftrace_busy 0 (@module_image ftrace_busy) _ Hp)
    as (err & k' & l & a & (Hrun & Hlog & _) & Hcases).
  exists err, k', l. split_and!; [done|by rewrite Hlog|].
  destruct Hcases as [[_ ->]|[[_ ->]|[(_ & r & ->)|[_ ->]]]]; cbn; lia.
Defined.

Lemma load_then_unload_witness :
  (demo_hooks + @ARRAY_SIZE_demo_hooks ftrace_ready
   <= length (hook_cells (@module_image ftrace_ready)))%nat
  /\ exists k1 k2,
       @fh_init ftrace_ready (@module_image ftrace_ready) = Some (0, k1)
       /\ @fh_exit ftrace_ready k1 = Some ((), k2)
       /\ registered (klog k2) = [0%nat]
       /\ unregistered (klog k2) = [0%nat].
Proof.
  assert (Hlen : (demo_hooks + @ARRAY_SIZE_demo_hooks ftrace_ready
                  <= length (hook_cells (@module_image ftrace_ready)))%nat)
    by (cbn; lia).
  split; [exact Hlen|].
  destruct (@fh_init ftrace_ready (@module_image ftrace_ready))
    as [[err k1]|] eqn:Hinit; [|discriminate Hinit].
  assert (Herr : err = 0) by (by injection Hinit as <- _).
  subst err. exists k1.
  destruct (@load_then_unload ftrace_ready _ k1 Hlen Hinit)
    as (k2 & l1 & l2 & Hexit & Hlog & Hr1 & Hu1 & Hr2 & Hu2).
  exists k2. split_and!; [done..| |].
  - rewrite Hlog. by rewrite !registered_app, Hr1, Hr2.
  - rewrite Hlog. by rewrite !unregistered_app, Hu1, Hu2.
Defined.

End HookMore.

(** *** Further properties of the trap handler *)

Module TrapMore.
Import TrapHook.
Local Open Scope Z_scope.

Section Traps.
Context {pt_regs : Type} `{!trap_env pt_regs}.
Implicit Types (regs : pt_regs) (str : string).

(** A user-mode fault with trap number 6 is offered to the emulator once,
    before anything else.  If the emulator returns nonzero the handler
    returns with the snapshot the emulator left and the original handler
    is not called.  If it returns 0 the original handler is called with
    the snapshot as the emulator left it, not as it was received. *)
Theorem eligible_fault_outcome regs error_code str signr r regs' :
  user_mode regs = true ->
  opemu_utrap regs = (r, regs') ->
  fh_do_error_trap regs error_code str 6 signr
  = if nonzero r
    then (regs', [called_opemu_utrap regs])
    else (do_error_trap regs' error_code str 6 signr,
          [called_opemu_utrap regs;
           called_orig_do_error_trap regs' error_code str 6 signr]).
Proof.
  intros Hu He. unfold fh_do_error_trap, user_trap, orig_do_error_trap.
  rewrite Hu, He. cbn [Z.eqb Pos.eqb]. by destruct (nonzero r).
Qed.

End Traps.

Lemma eligible_fault_outcome_witness :
  let regs := {| cpl_user := true; ip := 4096 |} in
  let regs' := {| cpl_user := true; ip := 4101 |} in
  @user_mode _ always_emulates regs = true
  /\ @opemu_utrap _ always_emulates regs = (1, regs')
  /\ @fh_do_error_trap _ always_emulates regs 0 "invalid opcode" 6 4
     = (regs', [called_opemu_utrap regs]).
Proof.
  intros regs regs'. split_and!; [reflexivity..|].
  by rewrite (@eligible_fault_outcome _ always_emulates regs 0 "invalid opcode" 4
                1 regs' eq_refl eq_refl).
Defined.

End TrapMore.
